(** * unko-links: routing of marked messages to forum topics

    A shallow embedding of [src/unko.py] (the Telegram bot that copies
    messages of the "Hauptgruppe" topic to the "Biete" / "Suche" topics) and
    the properties of its routing core.

    Modelling conventions.
    - A Python [str] is a Rocq [string] holding its UTF-8 encoding.
    - The module-level dictionary [user_forwarding_context] is a finite map
      [gmap Z UserContext] threaded through the handler.
    - [datetime] values are integers counting microseconds (the resolution
      of [datetime] and [timedelta]); [datetime.now()] is read at most once
      during one run of [handle_message] and its value is the parameter
      [now].
    - The Telegram client [context.bot] is an oracle that decides, from the
      calls attempted so far and the call at hand, whether the call returns
      or raises.  Every attempted call is appended to the [outbox].
    - Of the log, only the records written by the [except] handlers are
      kept ([errors]); the other log lines have no effect on the routing. *)

From Stdlib Require Import ZArith NArith Lia Bool List Ascii String.
From stdpp Require Import base option list gmap strings pretty.

Local Open Scope string_scope.
Local Open Scope list_scope.
Local Open Scope Z_scope.

(** ** Python string primitives *)

Module PyStr.

(** [str.lower()], restricted to what the membership tests on the two
  markers can observe.  The markers are ASCII.  Apart from [A-Z], the only
  characters whose Unicode lower-casing produces ASCII are U+212A (to "k",
  which occurs in no marker) and U+0130 (to "i" followed by U+0307, whereas
  the "i" of "#biete" is followed by "e").  Hence lower-casing [A-Z]
  byte-wise and leaving every other byte alone gives the same answers to
  ["#biete" in text_lower] and ["#suche" in text_lower]. *)
Definition lower_ascii (c : ascii) : ascii :=
let n := N_of_ascii c in
if ((65 <=? n) && (n <=? 90))%N then ascii_of_N (n + 32) else c.

Fixpoint lower (s : string) : string :=
match s with
| EmptyString => EmptyString
| String c r => String (lower_ascii c) (lower r)
end.

(** [needle in hay] on strings. *)
Fixpoint contains (needle hay : string) : bool :=
if String.prefix needle hay then true
else match hay with
     | EmptyString => false
     | String _ r => contains needle r
     end.

(** One-byte white space of [str.isspace]: U+0009..U+000D, U+001C..U+001F
  and U+0020. *)
Definition space1 (c : ascii) : bool :=
let n := N_of_ascii c in
(((9 <=? n) && (n <=? 13)) || ((28 <=? n) && (n <=? 31)) || (n =? 32))%N.

Definition byte_is (c : ascii) (n : N) : bool := (N_of_ascii c =? n)%N.

(** [all_space s]: every character of [s] is white space for
  [str.isspace], i.e. [s.strip()] is the empty string.  The characters
  beyond ASCII are U+0085, U+00A0 (C2 85, C2 A0), U+1680 (E1 9A 80),
  U+2000..U+200A, U+2028, U+2029, U+202F (E2 80 xx), U+205F (E2 81 9F)
  and U+3000 (E3 80 80). *)
Fixpoint all_space (s : string) : bool :=
match s with
| EmptyString => true
| String c r =>
    if space1 c then all_space r
    else if byte_is c 194 then
      match r with
      | String d r' => (byte_is d 133 || byte_is d 160) && all_space r'
      | EmptyString => false
      end
    else if byte_is c 225 then
      match r with
      | String d (String e r') => byte_is d 154 && byte_is e 128 && all_space r'
      | _ => false
      end
    else if byte_is c 226 then
      match r with
      | String d (String e r') =>
          let m := N_of_ascii e in
          ((byte_is d 128
            && (((128 <=? m) && (m <=? 138)) || (m =? 168) || (m =? 169)
                || (m =? 175))%N)
           || (byte_is d 129 && byte_is e 159))
          && all_space r'
      | _ => false
      end
    else if byte_is c 227 then
      match r with
      | String d (String e r') => byte_is d 128 && byte_is e 128 && all_space r'
      | _ => false
      end
    else false
end.

(** Truth value of [text.strip()]. *)
Definition strip_truthy (s : string) : bool := negb (all_space s).

(** Truth value of a string: non-empty. *)
Definition truthy (s : string) : bool :=
match s with EmptyString => false | _ => true end.

(** Truth value of an optional string attribute ([None] and [""] are
  false). *)
Definition otruthy (o : option string) : bool :=
match o with Some s => truthy s | None => false end.

(** Membership of a byte in a string. *)
Fixpoint has_byte (c : ascii) (s : string) : bool :=
match s with
| EmptyString => false
| String d r => if Ascii.eqb c d then true else has_byte c r
end.

(** [str(n)] for an integer. *)
Definition str_of_int (n : Z) : string := pretty n.

End PyStr.

(** ** Static configuration (read from the environment at start-up) *)

Record Config := {
  GROUP_ID : Z;
  HAUPTGRUPPE_TOPIC_ID : Z;
  BIETE_TOPIC_ID : Z;
  SUCHE_TOPIC_ID : Z;
  CONTEXT_TIME_WINDOW_MINUTES : Z
}.

(** The defaults of the [os.getenv] calls. *)
Definition default_config : Config :=
  {| GROUP_ID := -1003356712572;
     HAUPTGRUPPE_TOPIC_ID := 2;
     BIETE_TOPIC_ID := 3;
     SUCHE_TOPIC_ID := 4;
     CONTEXT_TIME_WINDOW_MINUTES := 5 |}.

(** [timedelta(minutes=m)] in microseconds. *)
Definition timedelta_minutes (m : Z) : Z := m * 60 * 1000000.

(** ** The context store *)

(** A value of [user_forwarding_context]:
    [{"topics": [...], "timestamp": datetime}]. *)
Record UserContext := {
  topics : list Z;
  timestamp : Z
}.

Section Store.
Variable cfg : Config.

Definition get_active_topics_for_user (now : Z) (user_id : Z)
    (ctx : gmap Z UserContext) : list Z * gmap Z UserContext :=
  match ctx !! user_id with
  | None => ([], ctx)
  | Some context_data =>
      let time_diff := now - timestamp context_data in
      if time_diff >? timedelta_minutes (CONTEXT_TIME_WINDOW_MINUTES cfg)
      then ([], delete user_id ctx)
      else (topics context_data, ctx)
  end.

Definition update_user_context (now : Z) (user_id : Z) (tps : list Z)
    (ctx : gmap Z UserContext) : gmap Z UserContext :=
  <[user_id := {| topics := tps; timestamp := now |}]> ctx.
End Store.

(** ** Inbound messages *)

Module Tg.
Record User := { id : Z; first_name : string }.

(** The attributes of [telegram.Message] that the handler reads.  [photo]
    is the tuple of the sizes' file ids; the other payloads are present
    or [None]. *)
Record Message := {
  chat_id : Z;
  message_thread_id : option Z;
  text : option string;
  caption : option string;
  from_user : option User;
  photo : list string;
  video : option string;
  document : option string;
  audio : option string;
  voice : option string;
  video_note : option string;
  sticker : option string
}.

Record Update := { message : option Message }.
End Tg.

(** ** Outbound calls, exceptions and the world *)

(** The calls on [context.bot].  Where the method has a [parse_mode]
    argument the handler always passes ["Markdown"]. *)
Inductive Call :=
| send_message (chat_id message_thread_id : Z) (text : string)
| send_photo (chat_id message_thread_id : Z) (photo caption : string)
| send_video (chat_id message_thread_id : Z) (video caption : string)
| send_document (chat_id message_thread_id : Z) (document caption : string)
| send_audio (chat_id message_thread_id : Z) (audio caption : string)
| send_voice (chat_id message_thread_id : Z) (voice caption : string)
| send_video_note (chat_id message_thread_id : Z) (video_note : string)
| send_sticker (chat_id message_thread_id : Z) (sticker : string).

Definition call_thread (c : Call) : Z :=
  match c with
  | send_message _ t _ | send_photo _ t _ _ | send_video _ t _ _
  | send_document _ t _ _ | send_audio _ t _ _ | send_voice _ t _ _
  | send_video_note _ t _ | send_sticker _ t _ => t
  end.

Definition call_chat (c : Call) : Z :=
  match c with
  | send_message g _ _ | send_photo g _ _ _ | send_video g _ _ _
  | send_document g _ _ _ | send_audio g _ _ _ | send_voice g _ _ _
  | send_video_note g _ _ | send_sticker g _ _ => g
  end.

Inductive Exn := AttributeError | TelegramError.

(** The [logger.error] records of the two [except] handlers. *)
Inductive ErrorRecord :=
| text_error (topic_id : Z) (e : Exn)
| media_error (topic_id : Z) (e : Exn).

(** An attempted call and whether it returned ([true]) or raised. *)
Definition Attempt : Type := Call * bool.

Definition Bot : Type := list Attempt -> Call -> bool.

Record World := {
  user_forwarding_context : gmap Z UserContext;
  outbox : list Attempt;
  errors : list ErrorRecord
}.

Inductive Result (A : Type) :=
| Ok (a : A)
| Raise (e : Exn).
Arguments Ok {A} a.
Arguments Raise {A} e.

(** Computations of the handler: state passing with exceptions. *)
Definition M (A : Type) : Type := World -> Result A * World.

Global Instance M_ret : MRet M := fun A a w => (Ok a, w).

Global Instance M_bind : MBind M := fun A B f m w =>
  match m w with
  | (Ok a, w') => f a w'
  | (Raise e, w') => (Raise e, w')
  end.

Definition raise {A} (e : Exn) : M A := fun w => (Raise e, w).

Definition try_except (body : M unit) (handler : Exn -> M unit) : M unit :=
  fun w =>
    match body w with
    | (Ok _, w') => (Ok tt, w')
    | (Raise e, w') => handler e w'
    end.

Fixpoint for_each {A} (l : list A) (body : A -> M unit) : M unit :=
  match l with
  | [] => mret tt
  | x :: r => body x ;; for_each r body
  end.

Definition log_error (r : ErrorRecord) : M unit := fun w =>
  (Ok tt, {| user_forwarding_context := user_forwarding_context w;
             outbox := outbox w;
             errors := errors w ++ [r] |}).

Definition bot_call (bot : Bot) (c : Call) : M unit := fun w =>
  let ok := bot (outbox w) c in
  ((if ok then Ok tt else Raise TelegramError),
   {| user_forwarding_context := user_forwarding_context w;
      outbox := outbox w ++ [(c, ok)];
      errors := errors w |}).

Definition with_store {A}
    (f : gmap Z UserContext -> A * gmap Z UserContext) : M A := fun w =>
  let '(a, ctx) := f (user_forwarding_context w) in
  (Ok a, {| user_forwarding_context := ctx;
            outbox := outbox w;
            errors := errors w |}).

(** ** The handler *)

(** The line feed of the f-strings. *)
Definition nl : string := String (ascii_of_nat 10) EmptyString.

Section Handler.
Variable cfg : Config.
Variable bot : Bot.

(** Truth value of a payload attribute other than [photo]. *)
Definition present (o : option string) : bool :=
  match o with Some _ => true | None => false end.

(** Truth value of [message.photo] (a tuple). *)
Definition nonempty {A} (l : list A) : bool :=
  match l with [] => false | _ => true end.

(** [obj.file_id] for a payload attribute known to be present. *)
Definition file_id (o : option string) : string := default "" o.

(** [caption_text] of [forward_media_to_topic]. *)
Definition caption_text (message : Tg.Message) (user_link : string) : string :=
  let caption_text := "📨 Von " +:+ user_link in
  if PyStr.otruthy (Tg.caption message)
  then caption_text +:+ ":" +:+ nl +:+ nl +:+ default "" (Tg.caption message)
  else caption_text.

Definition forward_media_to_topic (message : Tg.Message) (topic_id : Z)
    (user_link : string) : M unit :=
  try_except
    (let caption_text := caption_text message user_link in
     if nonempty (Tg.photo message) then
       let photo := List.last (Tg.photo message) "" in
       bot_call bot (send_photo (GROUP_ID cfg) topic_id photo caption_text)
     else if present (Tg.video message) then
       bot_call bot (send_video (GROUP_ID cfg) topic_id
                       (file_id (Tg.video message)) caption_text)
     else if present (Tg.document message) then
       bot_call bot (send_document (GROUP_ID cfg) topic_id
                       (file_id (Tg.document message)) caption_text)
     else if present (Tg.audio message) then
       bot_call bot (send_audio (GROUP_ID cfg) topic_id
                       (file_id (Tg.audio message)) caption_text)
     else if present (Tg.voice message) then
       bot_call bot (send_voice (GROUP_ID cfg) topic_id
                       (file_id (Tg.voice message)) caption_text)
     else if present (Tg.video_note message) then
       bot_call bot (send_video_note (GROUP_ID cfg) topic_id
                       (file_id (Tg.video_note message))) ;;
       bot_call bot (send_message (GROUP_ID cfg) topic_id caption_text)
     else if present (Tg.sticker message) then
       bot_call bot (send_sticker (GROUP_ID cfg) topic_id
                       (file_id (Tg.sticker message))) ;;
       if PyStr.otruthy (Tg.caption message)
       then bot_call bot (send_message (GROUP_ID cfg) topic_id caption_text)
       else mret tt
     else mret tt)
    (fun e => log_error (media_error topic_id e)).

(** [message.text or message.caption or ""]. *)
Definition text_of (message : Tg.Message) : string :=
  if PyStr.otruthy (Tg.text message) then default "" (Tg.text message)
  else if PyStr.otruthy (Tg.caption message) then default "" (Tg.caption message)
  else "".

(** [has_media] of [handle_message]. *)
Definition has_media (message : Tg.Message) : bool :=
  nonempty (Tg.photo message) || present (Tg.video message)
  || present (Tg.document message) || present (Tg.audio message)
  || present (Tg.voice message) || present (Tg.video_note message)
  || present (Tg.sticker message).

(** [target_topics] of [handle_message], from the lower-cased text. *)
Definition target_topics (text_lower : string) : list Z :=
  let target_topics : list Z := [] in
  let target_topics :=
    if PyStr.contains "#biete" text_lower
    then target_topics ++ [BIETE_TOPIC_ID cfg] else target_topics in
  let target_topics :=
    if PyStr.contains "#suche" text_lower
    then target_topics ++ [SUCHE_TOPIC_ID cfg] else target_topics in
  target_topics.

(** [f"[{user.first_name}](tg://user?id={user.id})"]. *)
Definition user_link_of (user : Tg.User) : string :=
  "[" +:+ Tg.first_name user +:+ "](tg://user?id="
      +:+ PyStr.str_of_int (Tg.id user) +:+ ")".

(** Reading an attribute of [message.from_user]: [AttributeError] on
    [None]. *)
Definition getattr_user (user : option Tg.User) : M Tg.User :=
  match user with
  | Some u => mret u
  | None => raise AttributeError
  end.

(** The body of the text message sent to a topic. *)
Definition text_body (user_link text : string) : string :=
  "📨 Von " +:+ user_link +:+ ":" +:+ nl +:+ nl +:+ text.

(** The loop that sends the text to each topic, each send in its own
    [try]. *)
Definition send_text_to_topics (tps : list Z) (user_link text : string)
    : M unit :=
  for_each tps (fun topic_id =>
    try_except
      (bot_call bot (send_message (GROUP_ID cfg) topic_id
                       (text_body user_link text)))
      (fun e => log_error (text_error topic_id e))).

Definition send_media_to_topics (tps : list Z) (message : Tg.Message)
    (user_link : string) : M unit :=
  for_each tps (fun topic_id =>
    forward_media_to_topic message topic_id user_link).

Definition handle_message (now : Z) (update : Tg.Update) : M unit :=
  match Tg.message update with
  | None => mret tt
  | Some message =>
    if negb (Tg.chat_id message =? GROUP_ID cfg) then mret tt
    else if negb (bool_decide (Tg.message_thread_id message
                               = Some (HAUPTGRUPPE_TOPIC_ID cfg)))
    then mret tt
    else
      let text := text_of message in
      let user := Tg.from_user message in
      u ← getattr_user user;
      let user_link := user_link_of u in
      let text_lower := PyStr.lower text in
      let has_media := has_media message in
      let target_topics := target_topics text_lower in
      if nonempty target_topics then
        (if PyStr.strip_truthy text
         then send_text_to_topics target_topics user_link text
         else mret tt) ;;
        (if has_media
         then send_media_to_topics target_topics message user_link
         else mret tt) ;;
        with_store (fun ctx =>
          (tt, update_user_context now (Tg.id u) target_topics ctx))
      else if has_media || PyStr.strip_truthy text then
        active_topics ← with_store
          (get_active_topics_for_user cfg now (Tg.id u));
        if nonempty active_topics then
          (if PyStr.strip_truthy text
           then send_text_to_topics active_topics user_link text
           else mret tt) ;;
          (if has_media
           then send_media_to_topics active_topics message user_link
           else mret tt)
        else mret tt
      else mret tt
  end.
End Handler.

(** The world of a freshly started process. *)
Definition initial_world : World :=
  {| user_forwarding_context := ∅; outbox := []; errors := [] |}.

(** Oracles used in the examples. *)
Definition bot_ok : Bot := fun _ _ => true.
(** Refuses every [send_message], accepts the rest. *)
Definition bot_no_text : Bot := fun _ c =>
  match c with send_message _ _ _ => false | _ => true end.
(** Refuses the payloads that take no caption, accepts the rest. *)
Definition bot_no_note : Bot := fun _ c =>
  match c with send_video_note _ _ _ | send_sticker _ _ _ => false | _ => true end.

Definition plain_message (sender : option Tg.User) (txt : string) : Tg.Message :=
  {| Tg.chat_id := -1003356712572; Tg.message_thread_id := Some 2;
     Tg.text := Some txt; Tg.caption := None; Tg.from_user := sender;
     Tg.photo := []; Tg.video := None; Tg.document := None;
     Tg.audio := None; Tg.voice := None; Tg.video_note := None;
     Tg.sticker := None |}.

Definition alice : Tg.User := {| Tg.id := 77; Tg.first_name := "Alice" |}.

(** ** The classifier as the specification words it *)

Module Spec.

(** The configured markers with their destinations, in configured
    order. *)
Definition markers (cfg : Config) : list (string * Z) :=
  [("#biete", BIETE_TOPIC_ID cfg); ("#suche", SUCHE_TOPIC_ID cfg)].

(** Position of the first occurrence of [needle] in [hay]. *)
Fixpoint find (needle hay : string) : option nat :=
  if String.prefix needle hay then Some 0%nat
  else match hay with
       | EmptyString => None
       | String _ r => S <$> find needle r
       end.

(** Insertion of a found marker into a list ordered by position. *)
Fixpoint insert_by_position (x : nat * Z) (l : list (nat * Z))
    : list (nat * Z) :=
  match l with
  | [] => [x]
  | y :: r =>
      if (fst x <=? fst y)%nat then x :: l
      else y :: insert_by_position x r
  end.

Definition sort_by_position (l : list (nat * Z)) : list (nat * Z) :=
  foldr insert_by_position [] l.

(** Duplicates collapsed, the first occurrence kept. *)
Fixpoint dedup (l : list Z) : list Z :=
  match l with
  | [] => []
  | x :: r => x :: filter (fun y => y <> x) (dedup r)
  end.

(** "The destination of every configured marker that occurs in the text
    as a case-insensitive substring, with duplicates collapsed, ordered by
    the markers' first occurrence in the text". *)
Definition classify_by_first_occurrence (cfg : Config) (text : string)
    : list Z :=
  let found :=
    omap (fun md : string * Z =>
            (fun i => (i, snd md)) <$> find (fst md) (PyStr.lower text))
         (markers cfg) in
  dedup (map snd (sort_by_position found)).

(** [m] occurs in [t] as a case-insensitive substring. *)
Definition occurs_ci (m t : string) : Prop :=
  exists a x b, t = a +:+ x +:+ b /\ PyStr.lower x = m.

End Spec.

(** ** Histories of the context store *)

Inductive StoreOp :=
| op_put (now user_id : Z) (tps : list Z)
| op_get (now user_id : Z).

Definition run_op (cfg : Config) (ctx : gmap Z UserContext) (op : StoreOp)
    : gmap Z UserContext :=
  match op with
  | op_put now user_id tps => update_user_context now user_id tps ctx
  | op_get now user_id => snd (get_active_topics_for_user cfg now user_id ctx)
  end.

Definition run_ops (cfg : Config) (ops : list StoreOp)
    (ctx : gmap Z UserContext) : gmap Z UserContext :=
  fold_left (run_op cfg) ops ctx.

Definition op_time (op : StoreOp) : Z :=
  match op with op_put now _ _ | op_get now _ => now end.

(** The most recent [put] of a sender in a history: its time and topics. *)
Fixpoint last_put (user_id : Z) (ops : list StoreOp) : option (Z * list Z) :=
  match ops with
  | [] => None
  | op :: r =>
      match last_put user_id r with
      | Some p => Some p
      | None =>
          match op with
          | op_put now u tps => if u =? user_id then Some (now, tps) else None
          | op_get _ _ => None
          end
      end
  end.

(** Every operation of the history happened at or before [now]. *)
Definition not_after (now : Z) (ops : list StoreOp) : Prop :=
  Forall (fun op => op_time op <= now) ops.

(** ** Traces of a dispatch *)

(** The attempts made when the calls [cs] are issued one after the other
    inside one [try] block: the first call that raises ends the block. *)
Fixpoint attempts_until_failure (bot : Bot) (tr : list Attempt)
    (cs : list Call) : list Attempt :=
  match cs with
  | [] => []
  | c :: r =>
      let ok := bot tr c in
      (c, ok) :: (if ok then attempts_until_failure bot (tr ++ [(c, ok)]) r
                  else [])
  end.

(** A [try] block: the calls of its body and the record its [except]
    handler logs. *)
Definition Block : Type := ErrorRecord * list Call.

(** The attempts and the error records of a sequence of [try] blocks run one
    after the other, whatever happens inside each. *)
Fixpoint attempts_of_blocks (bot : Bot) (tr : list Attempt)
    (blocks : list Block) : list Attempt * list ErrorRecord :=
  match blocks with
  | [] => ([], [])
  | (r, cs) :: rest =>
      let a := attempts_until_failure bot tr cs in
      let '(a', es) := attempts_of_blocks bot (tr ++ a) rest in
      (a ++ a', (if forallb snd a then [] else [r]) ++ es)
  end.

Section Plan.
Variable cfg : Config.

(** The calls in the [try] block of [forward_media_to_topic], in the
    order in which they are written. *)
Definition media_plan (message : Tg.Message) (topic_id : Z)
    (user_link : string) : list Call :=
  let cap := caption_text message user_link in
  if nonempty (Tg.photo message) then
    [send_photo (GROUP_ID cfg) topic_id (List.last (Tg.photo message) "") cap]
  else if present (Tg.video message) then
    [send_video (GROUP_ID cfg) topic_id (file_id (Tg.video message)) cap]
  else if present (Tg.document message) then
    [send_document (GROUP_ID cfg) topic_id (file_id (Tg.document message)) cap]
  else if present (Tg.audio message) then
    [send_audio (GROUP_ID cfg) topic_id (file_id (Tg.audio message)) cap]
  else if present (Tg.voice message) then
    [send_voice (GROUP_ID cfg) topic_id (file_id (Tg.voice message)) cap]
  else if present (Tg.video_note message) then
    [send_video_note (GROUP_ID cfg) topic_id (file_id (Tg.video_note message));
     send_message (GROUP_ID cfg) topic_id cap]
  else if present (Tg.sticker message) then
    send_sticker (GROUP_ID cfg) topic_id (file_id (Tg.sticker message))
    :: (if PyStr.otruthy (Tg.caption message)
        then [send_message (GROUP_ID cfg) topic_id cap] else [])
  else [].

(** The text send of one topic. *)
Definition text_call (topic_id : Z) (user_link text : string) : Call :=
  send_message (GROUP_ID cfg) topic_id (text_body user_link text).

(** The [try] blocks of a dispatch to [tps]: the text loop, then the
    media loop. *)
Definition dispatch_plan (tps : list Z) (message : Tg.Message)
    (user_link text : string) : list Block :=
  (if PyStr.strip_truthy text
   then map (fun t => (text_error t TelegramError,
                       [text_call t user_link text])) tps
   else [])
  ++ (if has_media message
      then map (fun t => (media_error t TelegramError,
                          media_plan message t user_link)) tps
      else []).

(** The message passes the two guards of [handle_message]. *)
Definition monitored (message : Tg.Message) : Prop :=
  Tg.chat_id message = GROUP_ID cfg
  /\ Tg.message_thread_id message = Some (HAUPTGRUPPE_TOPIC_ID cfg).

(** The destinations to which [handle_message] dispatches. *)
Definition final_destinations (now : Z) (message : Tg.Message)
    (user : Tg.User) (ctx : gmap Z UserContext) : list Z :=
  let text := text_of message in
  let kw := target_topics cfg (PyStr.lower text) in
  if nonempty kw then kw
  else if has_media message || PyStr.strip_truthy text
  then fst (get_active_topics_for_user cfg now (Tg.id user) ctx)
  else [].
End Plan.

(** The two loops of a dispatch, as they stand in both branches of
    [handle_message]. *)
Definition dispatch (cfg : Config) (bot : Bot) (tps : list Z)
    (message : Tg.Message) (user_link text : string) : M unit :=
  (if PyStr.strip_truthy text
   then send_text_to_topics cfg bot tps user_link text
   else mret tt) ;;
  (if has_media message
   then send_media_to_topics cfg bot tps message user_link
   else mret tt).

(** Number of attempts that raised. *)
Definition failures (a : list Attempt) : nat :=
  length (filter (fun x => snd x = false) a).

(** The world after further attempts and error records. *)
Definition extend (w : World) (a : list Attempt) (es : list ErrorRecord)
    : World :=
  {| user_forwarding_context := user_forwarding_context w;
     outbox := outbox w ++ a;
     errors := errors w ++ es |}.

(** The world with another context store. *)
Definition with_context (w : World) (ctx : gmap Z UserContext) : World :=
  {| user_forwarding_context := ctx;
     outbox := outbox w;
     errors := errors w |}.

(** The context store after [handle_message] has run on a monitored
    message of [user]. *)
Definition next_context (cfg : Config) (now : Z) (message : Tg.Message)
    (user : Tg.User) (ctx : gmap Z UserContext) : gmap Z UserContext :=
  let text := text_of message in
  let kw := target_topics cfg (PyStr.lower text) in
  if nonempty kw then update_user_context now (Tg.id user) kw ctx
  else if has_media message || PyStr.strip_truthy text
  then snd (get_active_topics_for_user cfg now (Tg.id user) ctx)
  else ctx.

(** ** Example inputs *)

(** The attribution header: the sender's display name with a link back to
    the sender. *)
Definition attribution_header (user : Tg.User) : string :=
  "📨 Von " +:+ user_link_of user.

(** A message of the monitored thread that carries a payload. *)
Definition photo_message (cap : option string) : Tg.Message :=
  {| Tg.chat_id := -1003356712572; Tg.message_thread_id := Some 2;
     Tg.text := None; Tg.caption := cap; Tg.from_user := Some alice;
     Tg.photo := ["p-small"; "p-large"]; Tg.video := None;
     Tg.document := None; Tg.audio := None; Tg.voice := None;
     Tg.video_note := None; Tg.sticker := None |}.

Definition video_note_message : Tg.Message :=
  {| Tg.chat_id := -1003356712572; Tg.message_thread_id := Some 2;
     Tg.text := None; Tg.caption := None; Tg.from_user := Some alice;
     Tg.photo := []; Tg.video := None;
     Tg.document := None; Tg.audio := None; Tg.voice := None;
     Tg.video_note := Some "vn-1"; Tg.sticker := None |}.

Definition sticker_message (cap : option string) : Tg.Message :=
  {| Tg.chat_id := -1003356712572; Tg.message_thread_id := Some 2;
     Tg.text := None; Tg.caption := cap; Tg.from_user := Some alice;
     Tg.photo := []; Tg.video := None;
     Tg.document := None; Tg.audio := None; Tg.voice := None;
     Tg.video_note := None; Tg.sticker := Some "st-1" |}.

(** A world in which Alice has a context for Biete written at time 0. *)
Definition world_with_context : World :=
  with_context initial_world (update_user_context 0 77 [3] ∅).

Definition update_of (m : Tg.Message) : Tg.Update :=
  {| Tg.message := Some m |}.

(** What a run leaves behind: the calls attempted and the store's
    entries. *)
Definition observed (r : Result unit * World)
    : Result unit * list Attempt * list (Z * UserContext) :=
  (fst r, outbox (snd r), map_to_list (user_forwarding_context (snd r))).

(** ** Runs of the handler *)

(** The sender to whom a store operation belongs. *)
Definition op_user (op : StoreOp) : Z :=
  match op with op_put _ u _ | op_get _ u => u end.

(** The handler run on a sequence of updates, each with the clock value read
    while it is handled.  The module-level store and the calls already made
    persist from one update to the next, whether the handler returned or
    raised. *)
Definition run_updates (cfg : Config) (bot : Bot)
    (updates : list (Z * Tg.Update)) (w : World) : World :=
  fold_left (fun w nu => snd (handle_message cfg bot (fst nu) (snd nu) w))
            updates w.

(** The call goes to the configured group and to one of the two destination
    topics. *)
Definition routed (cfg : Config) (c : Call) : Prop :=
  call_chat c = GROUP_ID cfg
  /\ (call_thread c = BIETE_TOPIC_ID cfg \/ call_thread c = SUCHE_TOPIC_ID cfg).

(** Every stored context names at least one topic, and only the two
    destination topics. *)
Definition context_ok (cfg : Config) (ctx : gmap Z UserContext) : Prop :=
  forall uid c, ctx !! uid = Some c ->
    topics c <> []
    /\ forall d, In d (topics c) ->
         d = BIETE_TOPIC_ID cfg \/ d = SUCHE_TOPIC_ID cfg.

(** The id of the sender of an update, if it has a message with a sender. *)
Definition sender_of (update : Tg.Update) : option Z :=
  match Tg.message update with
  | Some message =>
      match Tg.from_user message with
      | Some u => Some (Tg.id u)
      | None => None
      end
  | None => None
  end.

(** ** Loading of the environment file *)

Module Env.

(** [s.lstrip()]: the leading white-space characters of [str.isspace] are
    removed (the same characters as in [PyStr.all_space]). *)
Fixpoint lstrip (s : string) : string :=
  match s with
  | EmptyString => EmptyString
  | String c r =>
      if PyStr.space1 c then lstrip r
      else if PyStr.byte_is c 194 then
        match r with
        | String d r' =>
            if PyStr.byte_is d 133 || PyStr.byte_is d 160 then lstrip r' else s
        | EmptyString => s
        end
      else if PyStr.byte_is c 225 then
        match r with
        | String d (String e r') =>
            if PyStr.byte_is d 154 && PyStr.byte_is e 128 then lstrip r' else s
        | _ => s
        end
      else if PyStr.byte_is c 226 then
        match r with
        | String d (String e r') =>
            let m := N_of_ascii e in
            if (PyStr.byte_is d 128
                && (((128 <=? m) && (m <=? 138)) || (m =? 168) || (m =? 169)
                    || (m =? 175))%N)
               || (PyStr.byte_is d 129 && PyStr.byte_is e 159)
            then lstrip r' else s
        | _ => s
        end
      else if PyStr.byte_is c 227 then
        match r with
        | String d (String e r') =>
            if PyStr.byte_is d 128 && PyStr.byte_is e 128 then lstrip r' else s
        | _ => s
        end
      else s
  end.

(** [s.rstrip()]: the longest suffix made of white-space characters is
    removed. *)
Fixpoint rstrip (s : string) : string :=
  match s with
  | EmptyString => EmptyString
  | String c r => if PyStr.all_space s then EmptyString else String c (rstrip r)
  end.

(** [s.strip()]. *)
Definition strip (s : string) : string := rstrip (lstrip s).

(** [s.startswith(p)]. *)
Definition startswith (p s : string) : bool := String.prefix p s.

(** [line.split("=", 1)] for a line that holds an ["="]: what stands before
    the first ["="] and what stands after it. *)
Fixpoint split_eq (s : string) : string * string :=
  match s with
  | EmptyString => (EmptyString, EmptyString)
  | String c r =>
      if Ascii.eqb c "=" then (EmptyString, r)
      else let '(k, v) := split_eq r in (String c k, v)
  end.

(** Puts a byte in front of the first segment. *)
Definition cons_head (c : ascii) (l : list string) : list string :=
  match l with
  | [] => [String c EmptyString]
  | x :: t => String c x :: t
  end.

(** The segments of [s] between the line boundaries of [str.splitlines]:
    LF, CR, CR LF, VT, FF, FS, GS, RS, U+0085 (C2 85), U+2028 and U+2029
    (E2 80 A8, E2 80 A9).  The last segment is what follows the last
    boundary, possibly nothing. *)
Fixpoint segments (s : string) : list string :=
  match s with
  | EmptyString => [EmptyString]
  | String c r =>
      let n := N_of_ascii c in
      if (n =? 13)%N then
        match r with
        | String d r' =>
            if PyStr.byte_is d 10 then EmptyString :: segments r'
            else EmptyString :: segments r
        | EmptyString => EmptyString :: segments r
        end
      else if ((n =? 10) || (n =? 11) || (n =? 12)
               || (n =? 28) || (n =? 29) || (n =? 30))%N
      then EmptyString :: segments r
      else if (n =? 194)%N then
        match r with
        | String d r' =>
            if PyStr.byte_is d 133 then EmptyString :: segments r'
            else cons_head c (segments r)
        | EmptyString => cons_head c (segments r)
        end
      else if (n =? 226)%N then
        match r with
        | String d (String e r') =>
            if PyStr.byte_is d 128 && (PyStr.byte_is e 168 || PyStr.byte_is e 169)
            then EmptyString :: segments r'
            else cons_head c (segments r)
        | _ => cons_head c (segments r)
        end
      else cons_head c (segments r)
  end.

(** [s.splitlines()]: the segments, without the last one when it is
    empty. *)
Definition splitlines (s : string) : list string :=
  let segs := segments s in
  if PyStr.truthy (List.last segs EmptyString) then segs
  else List.removelast segs.

(** The string holds a NUL character. *)
Definition has_nul (s : string) : bool := PyStr.has_byte "000"%char s.

(** How [load_env] ends: it returns, or [os.environ] raises [ValueError]
    or [OSError];
    either way with the environment as it then is. *)
Inductive Outcome :=
| Loaded (environ : gmap string string)
| ValueError (environ : gmap string string)
| OSError (environ : gmap string string).

Definition environ_of (o : Outcome) : gmap string string :=
  match o with Loaded e | ValueError e | OSError e => e end.

(** [os.environ.setdefault(key, value)]: a variable that is set is left
    alone.  Otherwise the assignment raises [ValueError] when the name or
    the value holds NUL ("embedded null byte") or the name holds ["="]
    ("illegal environment variable name"), and [OSError] (EINVAL, from
    [setenv]) when the name is empty. *)
Definition setdefault (key value : string) (environ : gmap string string)
    : Outcome :=
  match environ !! key with
  | Some _ => Loaded environ
  | None =>
      if has_nul key || has_nul value || PyStr.contains "=" key
      then ValueError environ
      else if negb (PyStr.truthy key) then OSError environ
      else Loaded (<[key := value]> environ)
  end.

(** The [for] loop of [load_env] over the lines of the file. *)
Fixpoint load_env_lines (lines : list string) (environ : gmap string string)
    : Outcome :=
  match lines with
  | [] => Loaded environ
  | line :: rest =>
      let line := strip line in
      if negb (PyStr.truthy line) || startswith "#" line
         || negb (PyStr.contains "=" line)
      then load_env_lines rest environ
      else
        let '(key, value) := split_eq line in
        match setdefault (strip key) (strip value) environ with
        | Loaded environ' => load_env_lines rest environ'
        | ValueError environ' => ValueError environ'
        | OSError environ' => OSError environ'
        end
  end.

(** [load_env]: [file] is [None] when the path does not exist and the text
    of the file otherwise. *)
Definition load_env (file : option string) (environ : gmap string string)
    : Outcome :=
  match file with
  | None => Loaded environ
  | Some content => load_env_lines (splitlines content) environ
  end.

(** The assignment a line stands for, if it is not skipped. *)
Definition parse_line (line : string) : option (string * string) :=
  let line := strip line in
  if negb (PyStr.truthy line) || startswith "#" line
     || negb (PyStr.contains "=" line)
  then None
  else let '(key, value) := split_eq line in Some (strip key, strip value).

(** The assignments of a file, in the order of its lines. *)
Definition assignments (lines : list string) : list (string * string) :=
  omap parse_line lines.

(** The value of the first assignment to [key]. *)
Fixpoint first_value (key : string) (l : list (string * string))
    : option string :=
  match l with
  | [] => None
  | (k, v) :: r => if String.eqb k key then Some v else first_value key r
  end.

(** The assignment is one [os.environ] accepts. *)
Definition legal (kv : string * string) : bool :=
  PyStr.truthy (fst kv) && negb (PyStr.contains "=" (fst kv))
  && negb (has_nul (fst kv)) && negb (has_nul (snd kv)).

End Env.

(** A small environment file. *)
Definition env_file : string :=
  "# bot settings" +:+ nl +:+ "BOT_TOKEN = abc" +:+ nl +:+ nl
  +:+ "  GROUP_ID=-100" +:+ String (ascii_of_nat 13) nl
  +:+ "#BIETE_TOPIC_ID=9" +:+ nl +:+ "no assignment here" +:+ nl
  +:+ "GROUP_ID=7" +:+ nl +:+ "URL=a=b" +:+ nl.

(** * Properties *)

(** ** Computing with the string primitives *)

Example lower_ex : PyStr.lower "#BiEtE Fahrrad" = "#biete fahrrad".
Proof. reflexivity. Qed.

Example contains_ex : PyStr.contains "#suche" "ich #suche ein rad" = true.
Proof. reflexivity. Qed.

Example strip_ex :
  PyStr.strip_truthy "  " = false /\ PyStr.strip_truthy " a " = true
  /\ PyStr.str_of_int (-42) = "-42".
Proof. vm_compute. auto. Qed.

(** ** Strings *)

Module PyStrFacts.
Import PyStr.

Lemma app_nil (s : string) : "" +:+ s = s.
Proof. reflexivity. Qed.

Lemma app_cons (c : ascii) (a b : string) :
String c a +:+ b = String c (a +:+ b).
Proof. reflexivity. Qed.

Ltac unapp := rewrite ?app_cons, ?app_nil in *.

Lemma prefix_app (n h : string) :
String.prefix n h = true <-> exists b, h = n +:+ b.
Proof.
revert h. induction n as [|c n IH]; intros h; simpl.
- split; [intros _; exists h; reflexivity | intros _; now destruct h].
- destruct h as [|d h]; simpl.
  + split; [discriminate | intros [b Hb]; discriminate].
  + destruct (Ascii.ascii_dec c d) as [->|Hne].
    * rewrite IH. split; intros [b Hb]; exists b; unapp; congruence.
    * split; [discriminate | intros [b Hb]; unapp; congruence].
Qed.

Lemma contains_unfold (n h : string) :
contains n h =
if String.prefix n h then true
else match h with EmptyString => false | String _ r => contains n r end.
Proof. destruct h; reflexivity. Qed.

(** [contains] decides the substring relation. *)
Lemma contains_spec (n h : string) :
contains n h = true <-> exists a b, h = a +:+ n +:+ b.
Proof.
induction h as [|d h IH]; rewrite contains_unfold.
- destruct (String.prefix n "") eqn:E.
  + apply prefix_app in E as [b Hb]. split; [|reflexivity].
    intros _. exists "", b. exact Hb.
  + split; [discriminate|]. intros [a [b Hb]].
    destruct a; unapp; [|discriminate].
    assert (String.prefix n "" = true) by (apply prefix_app; eauto).
    congruence.
- destruct (String.prefix n (String d h)) eqn:E.
  + apply prefix_app in E as [b Hb]. split; [|reflexivity].
    intros _. exists "", b. exact Hb.
  + rewrite IH. split.
    * intros [a [b Hb]]. exists (String d a), b. unapp. congruence.
    * intros [a [b Hb]]. destruct a as [|e a]; unapp.
      -- assert (String.prefix n (String d h) = true)
           by (apply prefix_app; eauto). congruence.
      -- exists a, b. congruence.
Qed.

Lemma lower_app (a b : string) : lower (a +:+ b) = lower a +:+ lower b.
Proof.
induction a as [|c a IH]; unapp; simpl; unapp; [reflexivity | now rewrite IH].
Qed.

Lemma lower_split (t p q : string) :
lower t = p +:+ q ->
exists t1 t2, t = t1 +:+ t2 /\ lower t1 = p /\ lower t2 = q.
Proof.
revert t. induction p as [|c p IH]; intros t H; unapp.
- exists "", t. auto.
- destruct t as [|d t]; simpl in H; [discriminate|].
  injection H as Hc Ht. destruct (IH _ Ht) as (t1 & t2 & -> & H1 & H2).
  exists (String d t1), t2. unapp. simpl. repeat split; congruence.
Qed.

(** A marker is found in the lower-cased text exactly when some substring
  of the text lower-cases to the marker. *)
Lemma contains_lower (m t : string) :
contains m (lower t) = true <->
exists a x b, t = a +:+ x +:+ b /\ lower x = m.
Proof.
rewrite contains_spec. split.
- intros (a' & b' & H).
  apply lower_split in H as (a & r & -> & _ & Hr).
  apply lower_split in Hr as (x & b & -> & Hx & _).
  exists a, x, b. auto.
- intros (a & x & b & -> & <-). exists (lower a), (lower b).
  now rewrite !lower_app.
Qed.

Lemma has_byte_cons c d r :
has_byte c (String d r) = if Ascii.eqb c d then true else has_byte c r.
Proof. reflexivity. Qed.

Lemma has_byte_app c a b : has_byte c (a +:+ b) = has_byte c a || has_byte c b.
Proof.
induction a as [|d a IH]; unapp; [reflexivity|].
rewrite !has_byte_cons. destruct (Ascii.eqb c d); [reflexivity | exact IH].
Qed.

Lemma lower_ascii_hash d :
Ascii.eqb "#" (lower_ascii d) = Ascii.eqb "#" d.
Proof. destruct d as [[] [] [] [] [] [] [] []]; vm_compute; reflexivity. Qed.

Lemma has_hash_lower t : has_byte "#" (lower t) = has_byte "#" t.
Proof.
induction t as [|d t IH]; [reflexivity|].
change (lower (String d t)) with (String (lower_ascii d) (lower t)).
now rewrite !has_byte_cons, lower_ascii_hash, IH.
Qed.

Lemma all_space_cons c r :
all_space (String c r) =
if space1 c then all_space r
else if byte_is c 194 then
  match r with
  | String d r' => (byte_is d 133 || byte_is d 160) && all_space r'
  | EmptyString => false
  end
else if byte_is c 225 then
  match r with
  | String d (String e r') => byte_is d 154 && byte_is e 128 && all_space r'
  | _ => false
  end
else if byte_is c 226 then
  match r with
  | String d (String e r') =>
      let m := N_of_ascii e in
      ((byte_is d 128
        && (((128 <=? m) && (m <=? 138)) || (m =? 168) || (m =? 169)
            || (m =? 175))%N)
       || (byte_is d 129 && byte_is e 159))
      && all_space r'
  | _ => false
  end
else if byte_is c 227 then
  match r with
  | String d (String e r') => byte_is d 128 && byte_is e 128 && all_space r'
  | _ => false
  end
else false.
Proof. reflexivity. Qed.

(** A byte of a multi-byte sequence is not the ["#"]. *)
Lemma high_byte d : (128 <=? N_of_ascii d)%N = true -> Ascii.eqb "#" d = false.
Proof. destruct d as [[] [] [] [] [] [] [] []]; vm_compute; congruence. Qed.

Lemma byte_is_high d k :
byte_is d k = true -> (128 <=? k)%N = true -> Ascii.eqb "#" d = false.
Proof.
unfold byte_is. intros Hd Hk. apply N.eqb_eq in Hd. subst k.
now apply high_byte.
Qed.

Lemma space1_hash d : space1 d = true -> Ascii.eqb "#" d = false.
Proof. destruct d as [[] [] [] [] [] [] [] []]; vm_compute; congruence. Qed.

(** White space holds no ["#"]. *)
Lemma all_space_no_hash_aux (n : nat) : forall s,
(String.length s <= n)%nat -> all_space s = true -> has_byte "#" s = false.
Proof.
induction n as [|n IH]; intros s Hlen Hs.
- destruct s; [reflexivity | simpl in Hlen; lia].
- destruct s as [|c r]; [reflexivity|].
  simpl in Hlen. rewrite all_space_cons in Hs. rewrite has_byte_cons.
  destruct (space1 c) eqn:Ec.
  { rewrite (space1_hash _ Ec). apply IH; [lia | exact Hs]. }
  destruct (byte_is c 194) eqn:E1.
  { rewrite (byte_is_high _ _ E1) by reflexivity.
    destruct r as [|d r']; [discriminate|]. simpl in Hlen.
    apply andb_prop in Hs as [Hd Hs]. rewrite has_byte_cons.
    rewrite (IH r') by (lia || exact Hs).
    apply orb_prop in Hd as [Hd|Hd];
      now rewrite (byte_is_high _ _ Hd). }
  destruct (byte_is c 225) eqn:E2.
  { rewrite (byte_is_high _ _ E2) by reflexivity.
    destruct r as [|d [|e r']]; try discriminate. simpl in Hlen.
    apply andb_prop in Hs as [Hd Hs]. apply andb_prop in Hd as [Hd He].
    rewrite !has_byte_cons, (IH r') by (lia || exact Hs).
    now rewrite (byte_is_high _ _ Hd), (byte_is_high _ _ He). }
  destruct (byte_is c 226) eqn:E3.
  { rewrite (byte_is_high _ _ E3) by reflexivity.
    destruct r as [|d [|e r']]; try discriminate. simpl in Hlen.
    cbv zeta in Hs.
    apply andb_prop in Hs as [Hd Hs].
    rewrite !has_byte_cons, (IH r') by (lia || exact Hs).
    apply orb_prop in Hd as [Hd|Hd]; apply andb_prop in Hd as [Hd He].
    - rewrite (byte_is_high _ _ Hd) by reflexivity.
      apply orb_prop in He as [He|He];
        [apply orb_prop in He as [He|He];
         [apply orb_prop in He as [He|He]|]|].
      + apply andb_prop in He as [He _]. now rewrite (high_byte _ He).
      + now rewrite (byte_is_high e 168%N He).
      + now rewrite (byte_is_high e 169%N He).
      + now rewrite (byte_is_high e 175%N He).
    - now rewrite (byte_is_high _ _ Hd), (byte_is_high _ _ He). }
  destruct (byte_is c 227) eqn:E4; [|discriminate].
  rewrite (byte_is_high _ _ E4) by reflexivity.
  destruct r as [|d [|e r']]; try discriminate. simpl in Hlen.
  apply andb_prop in Hs as [Hd Hs]. apply andb_prop in Hd as [Hd He].
  rewrite !has_byte_cons, (IH r') by (lia || exact Hs).
  now rewrite (byte_is_high _ _ Hd), (byte_is_high _ _ He).
Qed.

Lemma all_space_no_hash s : all_space s = true -> has_byte "#" s = false.
Proof. apply (all_space_no_hash_aux (String.length s)). lia. Qed.

(** A text in which a marker that starts with ["#"] is found is not
  blank. *)
Lemma marker_not_blank (m t : string) :
contains (String "#" m) (lower t) = true -> strip_truthy t = true.
Proof.
intros H. apply contains_spec in H as (a & b & H).
unfold strip_truthy. destruct (all_space t) eqn:E; [|reflexivity].
apply all_space_no_hash in E. rewrite <- has_hash_lower, H in E.
rewrite has_byte_app in E. unapp. rewrite has_byte_cons in E.
change (Ascii.eqb "#" "#") with true in E.
now rewrite orb_true_r in E.
Qed.

End PyStrFacts.

(** ** The classifier *)

Section Classifier.
Variable cfg : Config.

Lemma target_topics_cases (tl : string) :
  target_topics cfg tl =
  (if PyStr.contains "#biete" tl then [BIETE_TOPIC_ID cfg] else [])
  ++ (if PyStr.contains "#suche" tl then [SUCHE_TOPIC_ID cfg] else []).
Proof.
  unfold target_topics.
  destruct (PyStr.contains "#biete" tl), (PyStr.contains "#suche" tl);
    reflexivity.
Qed.

Lemma occurs_ci_contains (m t : string) :
  Spec.occurs_ci m t <-> PyStr.contains m (PyStr.lower t) = true.
Proof. symmetry. apply PyStrFacts.contains_lower. Qed.

Lemma target_topics_not_blank (t : string) :
  target_topics cfg (PyStr.lower t) <> [] -> PyStr.strip_truthy t = true.
Proof.
  rewrite target_topics_cases. intros H.
  destruct (PyStr.contains "#biete" (PyStr.lower t)) eqn:Eb.
  - eapply PyStrFacts.marker_not_blank, Eb.
  - destruct (PyStr.contains "#suche" (PyStr.lower t)) eqn:Es.
    + eapply PyStrFacts.marker_not_blank, Es.
    + now destruct H.
Qed.
End Classifier.

(** C2, as stated, fails: with the default configuration the text
    "#suche und #biete" is classified as Biete, Suche (3, 4), whereas the
    order of the markers' first occurrences in the text is Suche, Biete
    (4, 3). *)
Lemma classify_first_occurrence_order_fails :
  target_topics default_config (PyStr.lower "#suche und #biete") = [3; 4]
  /\ Spec.classify_by_first_occurrence default_config "#suche und #biete"
     = [4; 3]
  /\ target_topics default_config (PyStr.lower "#suche und #biete")
     <> Spec.classify_by_first_occurrence default_config "#suche und #biete".
Proof. vm_compute. repeat split; congruence. Qed.

(** C2, amended: for every text the classifier returns one destination per
    configured marker that occurs in the text as a case-insensitive
    substring, in the fixed configured order (Biete, then Suche) whatever the
    positions of the markers in the text; a text with no marker gives the
    empty list. *)
Theorem classify_configured_order (cfg : Config) (text : string) :
  let r := target_topics cfg (PyStr.lower text) in
  let biete := Spec.occurs_ci "#biete" text in
  let suche := Spec.occurs_ci "#suche" text in
  (biete /\ suche -> r = [BIETE_TOPIC_ID cfg; SUCHE_TOPIC_ID cfg])
  /\ (biete /\ ~ suche -> r = [BIETE_TOPIC_ID cfg])
  /\ (~ biete /\ suche -> r = [SUCHE_TOPIC_ID cfg])
  /\ (~ biete /\ ~ suche -> r = []).
Proof.
  cbv zeta. rewrite !occurs_ci_contains, target_topics_cases.
  destruct (PyStr.contains "#biete" (PyStr.lower text)),
           (PyStr.contains "#suche" (PyStr.lower text));
    repeat split; intros [H1 H2]; try reflexivity; congruence.
Qed.

Lemma classify_configured_order_witness :
  target_topics default_config (PyStr.lower "Rad #SUCHE, Helm #Biete")
  = [3; 4].
Proof.
  apply (classify_configured_order default_config "Rad #SUCHE, Helm #Biete").
  split.
  - exists "Rad #SUCHE, Helm ", "#Biete", "". split; reflexivity.
  - exists "Rad ", "#SUCHE", ", Helm #Biete". split; reflexivity.
Defined.

(** C10, as stated, fails: the list is not duplicate-free when both markers
    are configured to the same destination and both occur. *)
Lemma keyword_destinations_duplicate :
  ~ NoDup (target_topics
             {| GROUP_ID := -1003356712572; HAUPTGRUPPE_TOPIC_ID := 2;
                BIETE_TOPIC_ID := 3; SUCHE_TOPIC_ID := 3;
                CONTEXT_TIME_WINDOW_MINUTES := 5 |}
             (PyStr.lower "#biete #suche Tausch")).
Proof.
  change (~ NoDup [3; 3]). intros H. apply NoDup_cons in H as [H _].
  apply H. left.
Qed.

(** C10, amended: for every text the keyword destination list holds only
    the configured Biete and Suche destinations, exactly one entry per
    marker present (the Biete destination if and only if "#biete" occurs,
    the Suche destination if and only if "#suche" occurs) and in the fixed
    configured order: it is [Biete; Suche] when both markers are present,
    [Biete] or [Suche] when one is, and empty when none is, wherever the
    markers stand in the text; it is duplicate-free whenever the two
    configured destinations differ. *)
Theorem keyword_destinations_fixed_order (cfg : Config) (text : string) :
  let r := target_topics cfg (PyStr.lower text) in
  let biete := Spec.occurs_ci "#biete" text in
  let suche := Spec.occurs_ci "#suche" text in
  sublist r [BIETE_TOPIC_ID cfg; SUCHE_TOPIC_ID cfg]
  /\ (forall d, d ∈ r -> d = BIETE_TOPIC_ID cfg \/ d = SUCHE_TOPIC_ID cfg)
  /\ (length r <= 2)%nat
  /\ (biete -> suche -> r = [BIETE_TOPIC_ID cfg; SUCHE_TOPIC_ID cfg])
  /\ (biete -> ~ suche -> r = [BIETE_TOPIC_ID cfg])
  /\ (~ biete -> suche -> r = [SUCHE_TOPIC_ID cfg])
  /\ (~ biete -> ~ suche -> r = [])
  /\ (biete -> In (BIETE_TOPIC_ID cfg) r)
  /\ (suche -> In (SUCHE_TOPIC_ID cfg) r)
  /\ (BIETE_TOPIC_ID cfg <> SUCHE_TOPIC_ID cfg ->
      NoDup r
      /\ (In (BIETE_TOPIC_ID cfg) r -> biete)
      /\ (In (SUCHE_TOPIC_ID cfg) r -> suche)).
Proof.
  cbv zeta. rewrite !occurs_ci_contains, target_topics_cases.
  assert (Hin : forall (d x y : Z) l, d ∈ l -> l ⊆ [x; y] -> d = x \/ d = y).
  { intros d x y l Hd Hl. apply Hl in Hd.
    apply list_elem_of_In in Hd. simpl in Hd. intuition congruence. }
  destruct (PyStr.contains "#biete" (PyStr.lower text)),
           (PyStr.contains "#suche" (PyStr.lower text)); simpl;
    (split; [|split; [|split; [|split; [|split; [|split; [|split;
       [|split; [|split]]]]]]]]);
    try lia; try congruence; try (intros; simpl; tauto).
  all: try (intros d Hd; apply (Hin _ _ _ _ Hd); intros z Hz;
            apply list_elem_of_In in Hz; apply list_elem_of_In;
            simpl in *; tauto).
  - reflexivity.
  - intros Hne. split; [|tauto].
    apply NoDup_cons. split; [|apply NoDup_singleton].
    intros H%list_elem_of_In. simpl in H. intuition congruence.
  - apply sublist_skip, sublist_nil_l.
  - intros Hne. split; [apply NoDup_singleton|]. split; [tauto|].
    simpl. intuition congruence.
  - apply sublist_cons, sublist_skip, sublist_nil_l.
  - intros Hne. split; [apply NoDup_singleton|]. split; [|tauto].
    simpl. intuition congruence.
  - apply sublist_nil_l.
  - intros _. split; [apply NoDup_nil_2|]. simpl. tauto.
Qed.

Lemma keyword_destinations_fixed_order_witness :
  NoDup (target_topics default_config (PyStr.lower "#Suche Rad, #biete Helm"))
  /\ target_topics default_config (PyStr.lower "#Biete Rad") = [3].
Proof.
  split.
  - apply (keyword_destinations_fixed_order default_config
             "#Suche Rad, #biete Helm").
    vm_compute. congruence.
  - destruct (keyword_destinations_fixed_order default_config "#Biete Rad")
      as (_ & _ & _ & _ & Hone & _).
    apply Hone.
    + exists "", "#Biete", " Rad". split; reflexivity.
    + intros H. apply occurs_ci_contains in H. vm_compute in H. discriminate.
Defined.

(** ** The context store *)

Section StoreFacts.
Variable cfg : Config.

Abbreviation window := (timedelta_minutes (CONTEXT_TIME_WINDOW_MINUTES cfg)).
Abbreviation get := (get_active_topics_for_user cfg).

Lemma get_absent now uid (ctx : gmap Z UserContext) :
  ctx !! uid = None -> get now uid ctx = ([], ctx).
Proof. intros H. unfold get_active_topics_for_user. now rewrite H. Qed.

Lemma get_expired now uid (ctx : gmap Z UserContext) c :
  ctx !! uid = Some c -> now - timestamp c > window ->
  get now uid ctx = ([], delete uid ctx).
Proof.
  intros H Hage. unfold get_active_topics_for_user. rewrite H. simpl.
  destruct (Z.gtb_spec (now - timestamp c) window); [reflexivity | lia].
Qed.

Lemma get_live now uid (ctx : gmap Z UserContext) c :
  ctx !! uid = Some c -> now - timestamp c <= window ->
  get now uid ctx = (topics c, ctx).
Proof.
  intros H Hage. unfold get_active_topics_for_user. rewrite H. simpl.
  destruct (Z.gtb_spec (now - timestamp c) window); [lia | reflexivity].
Qed.

Lemma put_lookup t0 uid tps (ctx : gmap Z UserContext) :
  update_user_context t0 uid tps ctx !! uid
  = Some {| topics := tps; timestamp := t0 |}.
Proof. apply lookup_insert_eq. Qed.

Lemma put_lookup_other t0 uid uid' tps (ctx : gmap Z UserContext) :
  uid <> uid' -> update_user_context t0 uid tps ctx !! uid' = ctx !! uid'.
Proof. intros H. now apply lookup_insert_ne. Qed.

(** A [put] overwrites: nothing of the previous entry survives. *)
Lemma put_put t0 t1 uid tps0 tps1 (ctx : gmap Z UserContext) :
  update_user_context t1 uid tps1 (update_user_context t0 uid tps0 ctx)
  = update_user_context t1 uid tps1 ctx.
Proof. apply insert_insert_eq. Qed.

(** The store reads and writes the entry of one sender only. *)
Lemma get_other now uid uid' (ctx : gmap Z UserContext) :
  uid <> uid' -> snd (get now uid ctx) !! uid' = ctx !! uid'.
Proof.
  intros H. unfold get_active_topics_for_user.
  destruct (ctx !! uid) as [c|]; [|reflexivity].
  destruct (_ >? _); simpl; [now apply lookup_delete_ne | reflexivity].
Qed.

(** A history without a [put] of the sender leaves no entry for it. *)
Lemma no_put_no_entry uid ops (ctx : gmap Z UserContext) :
  ctx !! uid = None -> last_put uid ops = None ->
  run_ops cfg ops ctx !! uid = None.
Proof.
  revert ctx. induction ops as [|op ops IH]; intros ctx Hctx Hops; simpl.
  - exact Hctx.
  - simpl in Hops. destruct (last_put uid ops) eqn:E; [discriminate|].
    apply IH; [|reflexivity]. destruct op as [t u tps|t u]; simpl.
    + destruct (Z.eqb_spec u uid); [discriminate|].
      now rewrite put_lookup_other.
    + destruct (decide (u = uid)) as [->|Hne].
      * unfold get_active_topics_for_user. now rewrite Hctx.
      * now rewrite get_other.
Qed.
(** What a [get] returns depends on the sender's entry only. *)
Lemma get_fst now uid (ctx : gmap Z UserContext) :
  fst (get now uid ctx) =
  match ctx !! uid with
  | Some c => if now - timestamp c >? window then [] else topics c
  | None => []
  end.
Proof.
  unfold get_active_topics_for_user.
  destruct (ctx !! uid) as [c|]; [|reflexivity].
  now destruct (_ >? _).
Qed.

(** Operations that are not a [put] of the sender and happen no later than
    [now] do not change what a [get] at [now] returns. *)
Lemma get_after_gets now uid ops (ctx : gmap Z UserContext) :
  not_after now ops -> last_put uid ops = None ->
  fst (get now uid (run_ops cfg ops ctx)) = fst (get now uid ctx).
Proof.
  revert ctx. induction ops as [|op ops IH]; intros ctx Ht Hops; simpl.
  - reflexivity.
  - apply Forall_cons in Ht as [Hop Ht]. simpl in Hops.
    destruct (last_put uid ops) eqn:E; [discriminate|].
    rewrite IH by (exact Ht || reflexivity).
    destruct op as [t u tps|t u]; simpl in *.
    + destruct (Z.eqb_spec u uid); [discriminate|].
      now rewrite !get_fst, put_lookup_other.
    + destruct (decide (u = uid)) as [->|Hne].
      * rewrite !get_fst. unfold get_active_topics_for_user.
        destruct (ctx !! uid) as [c|] eqn:Ec; [|simpl; now rewrite Ec].
        destruct (Z.gtb_spec (t - timestamp c) window) as [Hexp|Hlive]; simpl.
        -- rewrite lookup_delete_eq.
           destruct (Z.gtb_spec (now - timestamp c) window); [reflexivity | lia].
        -- now rewrite Ec.
      * now rewrite !get_fst, get_other.
Qed.

(** After any history whose operations happened no later than [now], a
    [get] is decided by the sender's most recent [put]. *)
Lemma get_after_history_from now uid ops (ctx : gmap Z UserContext) :
  not_after now ops ->
  fst (get now uid (run_ops cfg ops ctx)) =
  match last_put uid ops with
  | None => fst (get now uid ctx)
  | Some (t0, tps) => if now - t0 >? window then [] else tps
  end.
Proof.
  revert ctx. induction ops as [|op r IH]; intros ctx Ht.
  - reflexivity.
  - apply Forall_cons in Ht as [Hop Ht]. simpl.
    rewrite (IH (run_op cfg ctx op) Ht).
    destruct (last_put uid r) as [[t0 tps]|] eqn:E; [reflexivity|].
    destruct op as [t u tps|t u]; simpl.
    + destruct (Z.eqb_spec u uid) as [->|Hne].
      * now rewrite get_fst, put_lookup.
      * now rewrite !get_fst, put_lookup_other.
    + change (snd (get t u ctx)) with (run_ops cfg [op_get t u] ctx).
      apply get_after_gets; [|reflexivity].
      constructor; [exact Hop | constructor].
Qed.

Lemma get_after_history now uid ops :
  not_after now ops ->
  fst (get now uid (run_ops cfg ops ∅)) =
  match last_put uid ops with
  | None => []
  | Some (t0, tps) => if now - t0 >? window then [] else tps
  end.
Proof.
  intros Ht. rewrite (get_after_history_from now uid ops ∅ Ht).
  destruct (last_put uid ops) as [[t0 tps]|]; reflexivity.
Qed.
End StoreFacts.

(** C4: [get] returns the empty list when the sender has no entry (in
    particular after any history that holds no [put] of that sender); when
    [now] minus the entry's time stamp strictly exceeds the window it deletes
    the entry and returns the empty list; otherwise it returns exactly the
    topics of the entry, which is the one written by the most recent [put],
    and leaves the store untouched.  An entry whose age equals the window is
    still live. *)
Theorem context_get_spec (cfg : Config) (now uid : Z)
    (ctx : gmap Z UserContext) :
  let window := timedelta_minutes (CONTEXT_TIME_WINDOW_MINUTES cfg) in
  (forall ops, last_put uid ops = None ->
     get_active_topics_for_user cfg now uid (run_ops cfg ops ∅)
     = ([], run_ops cfg ops ∅))
  /\ (ctx !! uid = None -> get_active_topics_for_user cfg now uid ctx = ([], ctx))
  /\ (forall t0 tps,
        let ctx' := update_user_context t0 uid tps ctx in
        (now - t0 > window ->
         get_active_topics_for_user cfg now uid ctx' = ([], delete uid ctx'))
        /\ (now - t0 <= window ->
            get_active_topics_for_user cfg now uid ctx' = (tps, ctx'))
        /\ get_active_topics_for_user cfg (t0 + window) uid ctx' = (tps, ctx'))
  /\ (forall c, ctx !! uid = Some c ->
        (now - timestamp c > window ->
         get_active_topics_for_user cfg now uid ctx = ([], delete uid ctx))
        /\ (now - timestamp c <= window ->
            get_active_topics_for_user cfg now uid ctx = (topics c, ctx))).
Proof.
  cbv zeta. split; [|split; [|split]].
  - intros ops Hops. apply get_absent.
    apply no_put_no_entry; [apply lookup_empty | exact Hops].
  - apply get_absent.
  - intros t0 tps. split; [|split].
    + intros H. eapply get_expired; [apply put_lookup | exact H].
    + intros H. apply (get_live cfg now uid _ _ (put_lookup t0 uid tps ctx)).
      exact H.
    + apply (get_live cfg _ uid _ _ (put_lookup t0 uid tps ctx)). simpl. lia.
  - intros c Hc. split; intros H.
    + now apply get_expired with c.
    + now apply get_live.
Qed.

Lemma context_get_spec_witness :
  get_active_topics_for_user default_config 300000007 77
    (update_user_context 7 77 [3] ∅)
  = ([3], update_user_context 7 77 [3] ∅)
  /\ get_active_topics_for_user default_config 300000008 77
       (update_user_context 7 77 [3] ∅)
     = ([], delete 77 (update_user_context 7 77 [3] ∅)).
Proof.
  pose proof (context_get_spec default_config 300000007 77 ∅) as (_ & _ & H1 & _).
  pose proof (context_get_spec default_config 300000008 77 ∅) as (_ & _ & H2 & _).
  destruct (H1 7 [3]) as (_ & Hlive & _).
  destruct (H2 7 [3]) as (Hexpired & _).
  split.
  - apply Hlive. vm_compute. congruence.
  - apply Hexpired. reflexivity.
Defined.

(** C9: two [get]s in immediate succession with the same clock value give
    the same result, and the second one leaves the store as the first one
    left it; the first one changes the store at most by deleting the
    sender's expired entry. *)
Theorem context_get_idempotent (cfg : Config) (now uid : Z)
    (ctx : gmap Z UserContext) :
  let first := get_active_topics_for_user cfg now uid ctx in
  let second := get_active_topics_for_user cfg now uid (snd first) in
  fst second = fst first
  /\ snd second = snd first
  /\ (snd first = ctx
      \/ (snd first = delete uid ctx /\ fst first = []
          /\ exists c, ctx !! uid = Some c
               /\ now - timestamp c
                  > timedelta_minutes (CONTEXT_TIME_WINDOW_MINUTES cfg))).
Proof.
  cbv zeta. destruct (ctx !! uid) as [c|] eqn:E.
  - destruct (Z.gtb_spec (now - timestamp c)
                (timedelta_minutes (CONTEXT_TIME_WINDOW_MINUTES cfg)))
      as [Hexp|Hlive].
    + rewrite (get_expired cfg now uid ctx c E) by lia. simpl.
      rewrite get_absent by apply lookup_delete_eq. simpl.
      split; [reflexivity|]. split; [reflexivity|]. right.
      split; [reflexivity|]. split; [reflexivity|]. exists c. split; [reflexivity | lia].
    + rewrite (get_live cfg now uid ctx c E) by lia. simpl.
      rewrite (get_live cfg now uid ctx c E) by lia. auto.
  - rewrite (get_absent cfg now uid ctx E). simpl.
    rewrite (get_absent cfg now uid ctx E). auto.
Qed.

(** ** The monad and the dispatch loops *)

Lemma extend_nil (w : World) : extend w [] [] = w.
Proof. destruct w. unfold extend. simpl. now rewrite !app_nil_r. Qed.

Lemma extend_extend (w : World) a e a' e' :
  extend (extend w a e) a' e' = extend w (a ++ a') (e ++ e').
Proof. unfold extend. simpl. now rewrite !app_assoc. Qed.

Lemma bind_run {A B} (m : M A) (k : A -> M B) (w : World) :
  (m ≫= k) w =
  match m w with
  | (Ok a, w') => k a w'
  | (Raise e, w') => (Raise e, w')
  end.
Proof. reflexivity. Qed.

Lemma bind_assoc {A B C} (m : M A) (f : A -> M B) (g : B -> M C) (w : World) :
  ((m ≫= f) ≫= g) w = (m ≫= (fun x => f x ≫= g)) w.
Proof. rewrite !bind_run. now destruct (m w) as [[a|e] w']. Qed.

Lemma failures_app (a b : list Attempt) :
  failures (a ++ b) = (failures a + failures b)%nat.
Proof. unfold failures. now rewrite filter_app, length_app. Qed.

Section HandlerFacts.
Variable cfg : Config.
Variable bot : Bot.

Lemma bot_call_run (c : Call) (w : World) :
  bot_call bot c w =
  ((if bot (outbox w) c then Ok tt else Raise TelegramError),
   extend w [(c, bot (outbox w) c)] []).
Proof. unfold bot_call, extend. now rewrite app_nil_r. Qed.

(** Calls issued in sequence stop at the first one that raises. *)
Lemma calls_run (cs : list Call) (w : World) :
  for_each cs (bot_call bot) w =
  let a := attempts_until_failure bot (outbox w) cs in
  ((if forallb snd a then Ok tt else Raise TelegramError), extend w a []).
Proof.
  revert w. induction cs as [|c r IH]; intros w; simpl.
  - now rewrite extend_nil.
  - rewrite bind_run, bot_call_run.
    destruct (bot (outbox w) c) eqn:E; simpl.
    + rewrite IH. simpl. now rewrite extend_extend.
    + reflexivity.
Qed.

(** One [try] block. *)
Lemma block_run (cs : list Call) (r : Exn -> ErrorRecord) (w : World) :
  try_except (for_each cs (bot_call bot)) (fun e => log_error (r e)) w =
  let a := attempts_until_failure bot (outbox w) cs in
  (Ok tt, extend w a (if forallb snd a then [] else [r TelegramError])).
Proof.
  unfold try_except. rewrite calls_run. simpl.
  destruct (forallb snd _); [reflexivity|].
  unfold log_error, extend. simpl. now rewrite app_nil_r.
Qed.

(** A loop of [try] blocks. *)
Lemma blocks_run (tps : list Z) (plan : Z -> list Call)
    (r : Z -> Exn -> ErrorRecord) (w : World) :
  for_each tps (fun t =>
    try_except (for_each (plan t) (bot_call bot))
               (fun e => log_error (r t e))) w =
  let '(a, es) :=
    attempts_of_blocks bot (outbox w)
      (map (fun t => (r t TelegramError, plan t)) tps) in
  (Ok tt, extend w a es).
Proof.
  revert w. induction tps as [|t tps IH]; intros w; simpl.
  - now rewrite extend_nil.
  - rewrite bind_run, block_run. cbv zeta. cbv iota beta.
    rewrite IH. simpl outbox.
    destruct (attempts_of_blocks _ _ _) as [a' es].
    now rewrite extend_extend.
Qed.

Lemma attempts_of_blocks_app (tr : list Attempt) (b1 b2 : list Block) :
  attempts_of_blocks bot tr (b1 ++ b2) =
  let '(a1, e1) := attempts_of_blocks bot tr b1 in
  let '(a2, e2) := attempts_of_blocks bot (tr ++ a1) b2 in
  (a1 ++ a2, e1 ++ e2).
Proof.
  revert tr. induction b1 as [|[r cs] b1 IH]; intros tr; simpl.
  - rewrite app_nil_r. now destruct (attempts_of_blocks bot tr b2).
  - rewrite IH.
    destruct (attempts_of_blocks bot (tr ++ _) b1) as [a1 e1].
    rewrite <- app_assoc.
    destruct (attempts_of_blocks bot _ b2) as [a2 e2].
    now rewrite !app_assoc.
Qed.
End HandlerFacts.

(** ** The handler as a plan of [try] blocks *)

Section Dispatch.
Variable cfg : Config.
Variable bot : Bot.

Lemma for_each_ext {A} (l : list A) (f g : A -> M unit) (w : World) :
  (forall x w', f x w' = g x w') -> for_each l f w = for_each l g w.
Proof.
  intros H. revert w. induction l as [|x l IH]; intros w; simpl.
  - reflexivity.
  - rewrite !bind_run, H. destruct (g x w) as [[a|e] w']; [apply IH | reflexivity].
Qed.

Lemma try_call_block (c : Call) (h : Exn -> M unit) (w : World) :
  try_except (bot_call bot c) h w
  = try_except (for_each [c] (bot_call bot)) h w.
Proof.
  unfold try_except.
  change (for_each [c] (bot_call bot)) with (bot_call bot c ;; mret tt).
  rewrite bind_run.
  destruct (bot_call bot c w) as [[[]|e] w']; reflexivity.
Qed.

Lemma try_calls2_block (c1 c2 : Call) (h : Exn -> M unit) (w : World) :
  try_except (bot_call bot c1 ;; bot_call bot c2) h w
  = try_except (for_each [c1; c2] (bot_call bot)) h w.
Proof.
  unfold try_except.
  change (for_each [c1; c2] (bot_call bot))
    with (bot_call bot c1 ;; (bot_call bot c2 ;; mret tt)).
  rewrite !bind_run.
  destruct (bot_call bot c1 w) as [[[]|e] w']; [|reflexivity].
  rewrite !bind_run.
  destruct (bot_call bot c2 w') as [[[]|e] w'']; reflexivity.
Qed.

(** [forward_media_to_topic] is one [try] block around its plan. *)
Lemma forward_media_block (message : Tg.Message) (topic_id : Z)
    (user_link : string) (w : World) :
  forward_media_to_topic cfg bot message topic_id user_link w =
  try_except
    (for_each (media_plan cfg message topic_id user_link) (bot_call bot))
    (fun e => log_error (media_error topic_id e)) w.
Proof.
  unfold forward_media_to_topic, media_plan. cbv zeta.
  destruct (nonempty (Tg.photo message)); [apply try_call_block|].
  destruct (present (Tg.video message)); [apply try_call_block|].
  destruct (present (Tg.document message)); [apply try_call_block|].
  destruct (present (Tg.audio message)); [apply try_call_block|].
  destruct (present (Tg.voice message)); [apply try_call_block|].
  destruct (present (Tg.video_note message)); [apply try_calls2_block|].
  destruct (present (Tg.sticker message)); [|reflexivity].
  destruct (PyStr.otruthy (Tg.caption message)); [apply try_calls2_block|].
  unfold try_except.
  change (for_each [?c] (bot_call bot)) with (bot_call bot c ;; mret tt).
  rewrite !bind_run.
  destruct (bot_call bot _ w) as [[[]|e] w']; reflexivity.
Qed.

Lemma send_text_run tps user_link text (w : World) :
  send_text_to_topics cfg bot tps user_link text w =
  let '(a, es) :=
    attempts_of_blocks bot (outbox w)
      (map (fun t => (text_error t TelegramError,
                      [text_call cfg t user_link text])) tps) in
  (Ok tt, extend w a es).
Proof.
  unfold send_text_to_topics.
  rewrite (for_each_ext _ _
    (fun t => try_except
                (for_each [text_call cfg t user_link text] (bot_call bot))
                (fun e => log_error (text_error t e))))
    by (intros; apply try_call_block).
  apply (blocks_run bot tps (fun t => [text_call cfg t user_link text])
           text_error).
Qed.

Lemma send_media_run tps message user_link (w : World) :
  send_media_to_topics cfg bot tps message user_link w =
  let '(a, es) :=
    attempts_of_blocks bot (outbox w)
      (map (fun t => (media_error t TelegramError,
                      media_plan cfg message t user_link)) tps) in
  (Ok tt, extend w a es).
Proof.
  unfold send_media_to_topics.
  rewrite (for_each_ext _ _
    (fun t => try_except
                (for_each (media_plan cfg message t user_link) (bot_call bot))
                (fun e => log_error (media_error t e))))
    by (intros; apply forward_media_block).
  apply (blocks_run bot tps (fun t => media_plan cfg message t user_link)
           media_error).
Qed.

Lemma dispatch_run tps message user_link text (w : World) :
  dispatch cfg bot tps message user_link text w =
  let '(a, es) :=
    attempts_of_blocks bot (outbox w)
      (dispatch_plan cfg tps message user_link text) in
  (Ok tt, extend w a es).
Proof.
  unfold dispatch, dispatch_plan. rewrite bind_run, attempts_of_blocks_app.
  destruct (PyStr.strip_truthy text).
  - rewrite send_text_run.
    destruct (attempts_of_blocks bot (outbox w) _) as [a1 e1].
    destruct (has_media message).
    + rewrite send_media_run. simpl outbox.
      destruct (attempts_of_blocks bot _ _) as [a2 e2].
      now rewrite extend_extend.
    + simpl. now rewrite !app_nil_r.
  - simpl. rewrite app_nil_r. destruct (has_media message).
    + rewrite send_media_run.
      now destruct (attempts_of_blocks bot _ _) as [a2 e2].
    + simpl. now rewrite extend_nil.
Qed.

(** What [handle_message] does with a message of the monitored thread that
    has a sender: it returns, having made the attempts of the dispatch plan
    for the final destinations and moved the context store to
    [next_context]. *)
Lemma handle_message_run (now : Z) (message : Tg.Message) (u : Tg.User)
    (w : World) :
  monitored cfg message -> Tg.from_user message = Some u ->
  handle_message cfg bot now {| Tg.message := Some message |} w =
  let ctx := user_forwarding_context w in
  let '(a, es) :=
    attempts_of_blocks bot (outbox w)
      (dispatch_plan cfg (final_destinations cfg now message u ctx)
         message (user_link_of u) (text_of message)) in
  (Ok tt, extend (with_context w (next_context cfg now message u ctx)) a es).
Proof.
  intros [Hchat Hthread] Hu. unfold handle_message. simpl.
  rewrite Hchat, Z.eqb_refl, Hthread. simpl.
  rewrite bool_decide_eq_true_2 by reflexivity. simpl.
  rewrite Hu. simpl. rewrite bind_run. simpl.
  unfold final_destinations, next_context. cbv zeta.
  destruct (nonempty (target_topics cfg (PyStr.lower (text_of message))))
    eqn:Ekw.
  - rewrite <- bind_assoc.
    change ((if PyStr.strip_truthy ?t then ?x else ?y) ≫= ?k)
      with (dispatch cfg bot (target_topics cfg (PyStr.lower (text_of message)))
              message (user_link_of u) (text_of message)).
    rewrite bind_run, dispatch_run.
    destruct (attempts_of_blocks bot (outbox w) _) as [a es].
    reflexivity.
  - destruct (has_media message || PyStr.strip_truthy (text_of message)).
    + rewrite bind_run. unfold with_store at 1.
      destruct (get_active_topics_for_user cfg now (Tg.id u)
                  (user_forwarding_context w)) as [active ctx'] eqn:Eget.
      simpl fst. simpl snd.
      destruct (nonempty active) eqn:Eact.
      * change ((if PyStr.strip_truthy ?t then ?x else ?y) ≫= ?k)
          with (dispatch cfg bot active message (user_link_of u) (text_of message)).
        now rewrite dispatch_run.
      * destruct active; [|discriminate]. unfold dispatch_plan. simpl.
        destruct (PyStr.strip_truthy (text_of message)),
                 (has_media message); simpl; now rewrite extend_nil.
    + unfold dispatch_plan. simpl.
      destruct (PyStr.strip_truthy (text_of message)),
               (has_media message); simpl; rewrite extend_nil;
        now destruct w.
Qed.
End Dispatch.

(** ** Attempts of a plan *)

Section Attempts.
Variable bot : Bot.

Lemma attempts_until_failure_sub tr cs x :
  In x (attempts_until_failure bot tr cs) -> In (fst x) cs.
Proof.
  revert tr. induction cs as [|c r IH]; intros tr; simpl; [tauto|].
  intros [<-|H]; [now left|]. right.
  destruct (bot tr c); [eapply IH, H | destruct H].
Qed.

(** A [try] block holds at most one failed attempt, and holds one exactly
    when its handler runs. *)
Lemma attempts_until_failure_failures tr cs :
  failures (attempts_until_failure bot tr cs) =
  if forallb snd (attempts_until_failure bot tr cs) then 0%nat else 1%nat.
Proof.
  revert tr. induction cs as [|c r IH]; intros tr; simpl; [reflexivity|].
  destruct (bot tr c) eqn:E; simpl.
  - unfold failures in *. rewrite filter_cons. simpl.
    destruct (decide (true = false)); [discriminate | apply IH].
  - reflexivity.
Qed.

Lemma blocks_sub tr (bs : list Block) x :
  In x (fst (attempts_of_blocks bot tr bs)) ->
  exists b, In b bs /\ In (fst x) (snd b).
Proof.
  revert tr. induction bs as [|[r cs] bs IH]; intros tr; simpl; [tauto|].
  destruct (attempts_of_blocks bot _ bs) as [a' es] eqn:E. simpl.
  rewrite in_app_iff. intros [H|H].
  - exists (r, cs). split; [now left | eapply attempts_until_failure_sub, H].
  - specialize (IH (tr ++ attempts_until_failure bot tr cs)).
    rewrite E in IH. destruct (IH H) as (b & Hb & Hx).
    exists b. split; [now right | exact Hx].
Qed.

(** The first call of every block is attempted, whatever happened in the
    blocks before. *)
Lemma blocks_head tr (bs : list Block) r c cs :
  In (r, c :: cs) bs ->
  In c (map fst (fst (attempts_of_blocks bot tr bs))).
Proof.
  revert tr. induction bs as [|[r' cs'] bs IH]; intros tr; simpl; [tauto|].
  destruct (attempts_of_blocks bot _ bs) as [a' es] eqn:E. simpl.
  rewrite map_app, in_app_iff. intros [H|H].
  - injection H as -> ->. left. simpl. now left.
  - right. specialize (IH (tr ++ attempts_until_failure bot tr cs') H).
    now rewrite E in IH.
Qed.

(** One error record per failed attempt. *)
Lemma blocks_errors tr (bs : list Block) :
  length (snd (attempts_of_blocks bot tr bs))
  = failures (fst (attempts_of_blocks bot tr bs)).
Proof.
  revert tr. induction bs as [|[r cs] bs IH]; intros tr; simpl; [reflexivity|].
  specialize (IH (tr ++ attempts_until_failure bot tr cs)).
  destruct (attempts_of_blocks bot _ bs) as [a' es]. simpl in *.
  rewrite length_app, failures_app, IH, attempts_until_failure_failures.
  now destruct (forallb snd _).
Qed.

(** The attempts of a loop of one-call [try] blocks are the calls, one per
    block, in order. *)
Lemma single_blocks_calls tr (tps : list Z) (r : Z -> ErrorRecord)
    (c : Z -> Call) :
  map fst (fst (attempts_of_blocks bot tr (map (fun t => (r t, [c t])) tps)))
  = map c tps.
Proof.
  revert tr. induction tps as [|t tps IH]; intros tr; simpl; [reflexivity|].
  specialize (IH (tr ++ [(c t, bot tr (c t))])).
  destruct (bot tr (c t));
    destruct (attempts_of_blocks bot _ _) as [a es]; simpl in *;
    now rewrite IH.
Qed.
End Attempts.

Section PlanFacts.
Variable cfg : Config.

Lemma media_plan_calls message t link c :
  In c (media_plan cfg message t link) ->
  call_thread c = t /\ call_chat c = GROUP_ID cfg.
Proof.
  unfold media_plan. cbv zeta.
  repeat match goal with
         | |- context [if ?b then _ else _] => destruct b
         end; simpl; intuition (subst; auto).
Qed.

Lemma media_plan_head message t link :
  has_media message = true ->
  exists c cs, media_plan cfg message t link = c :: cs.
Proof.
  unfold has_media, media_plan. cbv zeta.
  destruct (nonempty (Tg.photo message)); [eauto|].
  destruct (present (Tg.video message)); [eauto|].
  destruct (present (Tg.document message)); [eauto|].
  destruct (present (Tg.audio message)); [eauto|].
  destruct (present (Tg.voice message)); [eauto|].
  destruct (present (Tg.video_note message)); [eauto|].
  destruct (present (Tg.sticker message)); [eauto | discriminate].
Qed.

Lemma dispatch_plan_calls tps message link text b c :
  In b (dispatch_plan cfg tps message link text) -> In c (snd b) ->
  In (call_thread c) tps /\ call_chat c = GROUP_ID cfg.
Proof.
  unfold dispatch_plan. rewrite in_app_iff. intros [H|H] Hc.
  - destruct (PyStr.strip_truthy text); [|destruct H].
    apply in_map_iff in H as (t & <- & Ht). simpl in Hc.
    destruct Hc as [<-|[]]. auto.
  - destruct (has_media message); [|destruct H].
    apply in_map_iff in H as (t & <- & Ht). simpl in Hc.
    apply media_plan_calls in Hc as [-> ->]. auto.
Qed.

Lemma dispatch_plan_nil message link text :
  dispatch_plan cfg [] message link text = [].
Proof.
  unfold dispatch_plan.
  now destruct (PyStr.strip_truthy text), (has_media message).
Qed.
End PlanFacts.

(** ** The ingress guards *)

Section Ingress.
Variable cfg : Config.
Variable bot : Bot.

(** A message of another chat or another thread is dropped: the handler
    returns with the world as it was. *)
Lemma ingress_drop (now : Z) (message : Tg.Message) (w : World) :
  Tg.chat_id message <> GROUP_ID cfg
  \/ Tg.message_thread_id message <> Some (HAUPTGRUPPE_TOPIC_ID cfg) ->
  handle_message cfg bot now (update_of message) w = (Ok tt, w).
Proof.
  intros H. unfold handle_message, update_of. simpl.
  destruct (Z.eqb_spec (Tg.chat_id message) (GROUP_ID cfg)) as [Hc|Hc];
    [|reflexivity]. simpl.
  destruct H as [H|H]; [contradiction|].
  now rewrite bool_decide_eq_false_2.
Qed.

(** An update without a message is dropped as well. *)
Lemma no_message_drop (now : Z) (w : World) :
  handle_message cfg bot now {| Tg.message := None |} w = (Ok tt, w).
Proof. reflexivity. Qed.
End Ingress.

(** C1 (the code departs from the claim): a message of the monitored
    thread that has no sender is not dropped silently.  The handler makes no
    send and leaves the context store alone, but it ends by raising
    [AttributeError] on [user.first_name], for every oracle, clock value
    and world. *)
Theorem no_sender_raises (cfg : Config) (bot : Bot) (now : Z)
    (message : Tg.Message) (w : World) :
  monitored cfg message -> Tg.from_user message = None ->
  handle_message cfg bot now (update_of message) w = (Raise AttributeError, w).
Proof.
  intros [Hchat Hthread] Hu. unfold handle_message, update_of. simpl.
  rewrite Hchat, Z.eqb_refl, Hthread. simpl.
  rewrite bool_decide_eq_true_2 by reflexivity. simpl.
  now rewrite Hu.
Qed.

Lemma no_sender_raises_witness :
  handle_message default_config bot_ok 1000
    (update_of (plain_message None "#biete Fahrrad")) initial_world
  = (Raise AttributeError, initial_world).
Proof.
  apply (no_sender_raises default_config bot_ok 1000
           (plain_message None "#biete Fahrrad") initial_world).
  - split; reflexivity.
  - reflexivity.
Defined.

(** ** Keyword-driven routing *)

(** C5: a message of the monitored thread, from a sender, whose text holds
    a marker: the handler returns; the calls attempted are exactly those of
    the dispatch to the keyword destinations, so every attempted call goes
    to one of the keyword destinations, every keyword destination gets its
    text send and, when the message has a payload, its media send, and
    without a payload the text sends are the only calls; then the store
    holds for the sender exactly the keyword destinations with the time
    stamp [now], whatever it held before. *)
Theorem keyword_route (cfg : Config) (bot : Bot) (now : Z)
    (message : Tg.Message) (u : Tg.User) (w : World) :
  monitored cfg message -> Tg.from_user message = Some u ->
  target_topics cfg (PyStr.lower (text_of message)) <> [] ->
  let kw := target_topics cfg (PyStr.lower (text_of message)) in
  exists new es,
    handle_message cfg bot now (update_of message) w
    = (Ok tt,
       extend (with_context w
                 (<[Tg.id u := {| topics := kw; timestamp := now |}]>
                    (user_forwarding_context w))) new es)
    /\ (new, es)
       = attempts_of_blocks bot (outbox w)
           (dispatch_plan cfg kw message (user_link_of u) (text_of message))
    /\ (forall x, In x new ->
          In (call_thread (fst x)) kw /\ call_chat (fst x) = GROUP_ID cfg)
    /\ (forall d, In d kw ->
          In (text_call cfg d (user_link_of u) (text_of message))
             (map fst new))
    /\ (has_media message = true ->
        forall d, In d kw ->
          exists c cs,
            media_plan cfg message d (user_link_of u) = c :: cs
            /\ In c (map fst new))
    /\ (has_media message = false ->
        map fst new
        = map (fun d => text_call cfg d (user_link_of u) (text_of message))
              kw).
Proof.
  intros Hmon Hu Hkw kw.
  unfold update_of. rewrite (handle_message_run cfg bot now message u w Hmon Hu).
  cbv zeta.
  assert (Hne : nonempty kw = true) by (subst kw; now destruct (target_topics _ _)).
  assert (Hdest : final_destinations cfg now message u (user_forwarding_context w)
                  = kw).
  { unfold final_destinations. cbv zeta. fold kw. now rewrite Hne. }
  assert (Hctx : next_context cfg now message u (user_forwarding_context w)
                 = <[Tg.id u := {| topics := kw; timestamp := now |}]>
                     (user_forwarding_context w)).
  { unfold next_context. cbv zeta. fold kw. now rewrite Hne. }
  rewrite Hdest, Hctx.
  pose proof (blocks_sub bot (outbox w)
                (dispatch_plan cfg kw message (user_link_of u) (text_of message)))
    as Hsub.
  pose proof (blocks_head bot (outbox w)
                (dispatch_plan cfg kw message (user_link_of u) (text_of message)))
    as Hhead.
  assert (Hplain : has_media message = false ->
            map fst (fst (attempts_of_blocks bot (outbox w)
                            (dispatch_plan cfg kw message (user_link_of u)
                               (text_of message))))
            = map (fun d => text_call cfg d (user_link_of u) (text_of message))
                  kw).
  { intros Hm. unfold dispatch_plan.
    rewrite Hm, (target_topics_not_blank cfg _ Hkw), app_nil_r.
    apply (single_blocks_calls bot (outbox w) kw
             (fun t => text_error t TelegramError)
             (fun t => text_call cfg t (user_link_of u) (text_of message))). }
  destruct (attempts_of_blocks bot (outbox w) _) as [new es].
  simpl in Hsub, Hhead, Hplain.
  exists new, es. split; [reflexivity|]. split; [reflexivity|].
  split; [|split; [|split]].
  - intros x Hx. destruct (Hsub x Hx) as (b & Hb & Hc).
    eapply dispatch_plan_calls; eassumption.
  - intros d Hd. apply (Hhead (text_error d TelegramError) _ []).
    unfold dispatch_plan. apply in_app_iff. left.
    rewrite (target_topics_not_blank cfg _ Hkw).
    apply in_map_iff. exists d. auto.
  - intros Hmedia d Hd.
    destruct (media_plan_head cfg message d (user_link_of u) Hmedia)
      as (c & cs & Hplan).
    exists c, cs. split; [exact Hplan|].
    apply (Hhead (media_error d TelegramError) c cs).
    unfold dispatch_plan. apply in_app_iff. right. rewrite Hmedia.
    apply in_map_iff. exists d. rewrite Hplan. auto.
  - exact Hplain.
Qed.

Lemma keyword_route_witness :
  exists new es,
    handle_message default_config bot_no_text 5000
      (update_of (photo_message (Some "#suche Rad"))) world_with_context
    = (Ok tt,
       extend (with_context world_with_context
                 (<[77 := {| topics := [4]; timestamp := 5000 |}]>
                    (user_forwarding_context world_with_context))) new es)
    /\ (forall x, In x new ->
          In (call_thread (fst x)) [4]
          /\ call_chat (fst x) = GROUP_ID default_config)
    /\ In (text_call default_config 4 (user_link_of alice) "#suche Rad")
          (map fst new)
    /\ In (send_photo (-1003356712572) 4 "p-large"
             (caption_text (photo_message (Some "#suche Rad"))
                (user_link_of alice)))
          (map fst new).
Proof.
  destruct (keyword_route default_config bot_no_text 5000
              (photo_message (Some "#suche Rad")) alice world_with_context)
    as (new & es & Hrun & _ & Hsub & Htext & Hmedia & _).
  - split; reflexivity.
  - reflexivity.
  - vm_compute. congruence.
  - exists new, es. split; [exact Hrun|]. split; [exact Hsub|]. split.
    + apply Htext. vm_compute. now left.
    + destruct (Hmedia eq_refl 4) as (c & cs & Hplan & Hin).
      * vm_compute. now left.
      * vm_compute in Hplan. injection Hplan as <- _. exact Hin.
Defined.

(** ** Context-driven routing *)

Lemma get_store_cases (cfg : Config) (now uid : Z) (ctx : gmap Z UserContext) :
  let r := get_active_topics_for_user cfg now uid ctx in
  snd r = ctx
  \/ (snd r = delete uid ctx /\ fst r = []
      /\ exists c, ctx !! uid = Some c
           /\ now - timestamp c
              > timedelta_minutes (CONTEXT_TIME_WINDOW_MINUTES cfg)).
Proof.
  cbv zeta. unfold get_active_topics_for_user.
  destruct (ctx !! uid) as [c|] eqn:E; [|now left].
  destruct (Z.gtb_spec (now - timestamp c)
              (timedelta_minutes (CONTEXT_TIME_WINDOW_MINUTES cfg)));
    [|now left].
  right. simpl. repeat split. exists c. split; [reflexivity | lia].
Qed.

(** C6: a message of the monitored thread, from a sender, without marker
    but with non-blank text or a payload: the handler returns; every
    attempted call goes to a destination returned by [get] and every such
    destination is served (its text send is attempted when the text is not
    blank, its media send when there is a payload); the store is left as
    [get] left it, that is unchanged but for the deletion of the sender's
    expired entry; when [get] returns nothing, nothing is sent. *)
Theorem context_route (cfg : Config) (bot : Bot) (now : Z)
    (message : Tg.Message) (u : Tg.User) (w : World) :
  monitored cfg message -> Tg.from_user message = Some u ->
  target_topics cfg (PyStr.lower (text_of message)) = [] ->
  has_media message || PyStr.strip_truthy (text_of message) = true ->
  let ctx := user_forwarding_context w in
  let got := get_active_topics_for_user cfg now (Tg.id u) ctx in
  exists new es,
    handle_message cfg bot now (update_of message) w
    = (Ok tt, extend (with_context w (snd got)) new es)
    /\ (forall x, In x new ->
          In (call_thread (fst x)) (fst got)
          /\ call_chat (fst x) = GROUP_ID cfg)
    /\ (PyStr.strip_truthy (text_of message) = true ->
        forall d, In d (fst got) ->
          In (text_call cfg d (user_link_of u) (text_of message))
             (map fst new))
    /\ (has_media message = true ->
        forall d, In d (fst got) ->
          exists c cs,
            media_plan cfg message d (user_link_of u) = c :: cs
            /\ In c (map fst new))
    /\ (fst got = [] -> new = [] /\ es = [])
    /\ (snd got = ctx
        \/ (snd got = delete (Tg.id u) ctx
            /\ exists c, ctx !! Tg.id u = Some c
                 /\ now - timestamp c
                    > timedelta_minutes (CONTEXT_TIME_WINDOW_MINUTES cfg))).
Proof.
  intros Hmon Hu Hkw Hcontent ctx got.
  unfold update_of. rewrite (handle_message_run cfg bot now message u w Hmon Hu).
  cbv zeta.
  assert (Hdest : final_destinations cfg now message u ctx = fst got).
  { unfold final_destinations. cbv zeta. now rewrite Hkw, Hcontent. }
  assert (Hctx : next_context cfg now message u ctx = snd got).
  { unfold next_context. cbv zeta. now rewrite Hkw, Hcontent. }
  fold ctx. rewrite Hdest, Hctx.
  destruct (attempts_of_blocks bot (outbox w) _) as [new es] eqn:E.
  exists new, es. split; [reflexivity|].
  pose proof (blocks_sub bot (outbox w)
                (dispatch_plan cfg (fst got) message (user_link_of u)
                   (text_of message))) as Hsub.
  pose proof (blocks_head bot (outbox w)
                (dispatch_plan cfg (fst got) message (user_link_of u)
                   (text_of message))) as Hhead.
  rewrite E in Hsub, Hhead. simpl in Hsub, Hhead.
  split; [|split; [|split; [|split]]].
  - intros x Hx. destruct (Hsub x Hx) as (b & Hb & Hc).
    eapply dispatch_plan_calls; eassumption.
  - intros Htext d Hd. apply (Hhead (text_error d TelegramError) _ []).
    unfold dispatch_plan. apply in_app_iff. left. rewrite Htext.
    apply in_map_iff. exists d. auto.
  - intros Hmedia d Hd.
    destruct (media_plan_head cfg message d (user_link_of u) Hmedia)
      as (c & cs & Hplan).
    exists c, cs. split; [exact Hplan|].
    apply (Hhead (media_error d TelegramError) c cs).
    unfold dispatch_plan. apply in_app_iff. right. rewrite Hmedia.
    apply in_map_iff. exists d. rewrite Hplan. auto.
  - intros Hnil. rewrite Hnil, dispatch_plan_nil in E. simpl in E.
    now injection E as <- <-.
  - destruct (get_store_cases cfg now (Tg.id u) ctx) as [H|(H & _ & H')];
      [now left | right; now split].
Qed.

Lemma context_route_witness :
  exists new es,
    handle_message default_config bot_ok 1000
      (update_of (plain_message (Some alice) "still available"))
      world_with_context
    = (Ok tt, extend world_with_context new es)
    /\ In (text_call default_config 3 (user_link_of alice) "still available")
          (map fst new).
Proof.
  destruct (context_route default_config bot_ok 1000
              (plain_message (Some alice) "still available") alice
              world_with_context)
    as (new & es & Hrun & _ & Htext & _).
  - split; reflexivity.
  - reflexivity.
  - reflexivity.
  - reflexivity.
  - exists new, es. split; [exact Hrun|].
    apply Htext; [reflexivity | now left].
Defined.

(** ** Isolation of delivery failures *)

(** C7: whatever the outcomes of the calls, the handler returns on a
    message of the monitored thread that has a sender; the text send to
    every final destination is attempted when the text is not blank and the
    media send to every final destination is attempted when there is a
    payload; every failed attempt is caught and leaves exactly one error
    record. *)
Theorem delivery_failures_isolated (cfg : Config) (bot : Bot) (now : Z)
    (message : Tg.Message) (u : Tg.User) (w : World) :
  monitored cfg message -> Tg.from_user message = Some u ->
  let ctx := user_forwarding_context w in
  let dests := final_destinations cfg now message u ctx in
  exists new es,
    handle_message cfg bot now (update_of message) w
    = (Ok tt, extend (with_context w (next_context cfg now message u ctx))
                new es)
    /\ length es = failures new
    /\ (PyStr.strip_truthy (text_of message) = true ->
        forall d, In d dests ->
          In (text_call cfg d (user_link_of u) (text_of message))
             (map fst new))
    /\ (has_media message = true ->
        forall d, In d dests ->
          exists c cs,
            media_plan cfg message d (user_link_of u) = c :: cs
            /\ In c (map fst new)).
Proof.
  intros Hmon Hu ctx dests.
  unfold update_of. rewrite (handle_message_run cfg bot now message u w Hmon Hu).
  cbv zeta. fold ctx. fold dests.
  pose proof (blocks_head bot (outbox w)
                (dispatch_plan cfg dests message (user_link_of u)
                   (text_of message))) as Hhead.
  pose proof (blocks_errors bot (outbox w)
                (dispatch_plan cfg dests message (user_link_of u)
                   (text_of message))) as Herr.
  destruct (attempts_of_blocks bot (outbox w) _) as [new es] eqn:E.
  simpl in Hhead, Herr.
  exists new, es. split; [reflexivity|]. split; [exact Herr|]. split.
  - intros Htext d Hd. apply (Hhead (text_error d TelegramError) _ []).
    unfold dispatch_plan. apply in_app_iff. left. rewrite Htext.
    apply in_map_iff. exists d. auto.
  - intros Hmedia d Hd.
    destruct (media_plan_head cfg message d (user_link_of u) Hmedia)
      as (c & cs & Hplan).
    exists c, cs. split; [exact Hplan|].
    apply (Hhead (media_error d TelegramError) c cs).
    unfold dispatch_plan. apply in_app_iff. right. rewrite Hmedia.
    apply in_map_iff. exists d. rewrite Hplan. auto.
Qed.

Lemma delivery_failures_isolated_witness :
  exists new es,
    handle_message default_config bot_no_text 1000
      (update_of (photo_message (Some "#suche looking for this")))
      initial_world
    = (Ok tt,
       extend (with_context initial_world
                 (update_user_context 1000 77 [4] ∅)) new es)
    /\ length es = failures new
    /\ In (send_photo (-1003356712572) 4 "p-large"
             (caption_text (photo_message (Some "#suche looking for this"))
                (user_link_of alice)))
          (map fst new).
Proof.
  destruct (delivery_failures_isolated default_config bot_no_text 1000
              (photo_message (Some "#suche looking for this")) alice
              initial_world)
    as (new & es & Hrun & Herr & _ & Hmedia).
  - split; reflexivity.
  - reflexivity.
  - exists new, es. split; [exact Hrun|]. split; [exact Herr|].
    destruct (Hmedia eq_refl 4) as (c & cs & Hplan & Hin).
    + vm_compute. now left.
    + vm_compute in Hplan. injection Hplan as <- _. exact Hin.
Defined.

(** ** Media dispatch *)

Section Media.
Variable cfg : Config.
Variable bot : Bot.

(** The attempts of one media dispatch. *)
Lemma forward_media_run (message : Tg.Message) (topic_id : Z)
    (user_link : string) (w : World) :
  let a := attempts_until_failure bot (outbox w)
             (media_plan cfg message topic_id user_link) in
  forward_media_to_topic cfg bot message topic_id user_link w
  = (Ok tt, extend w a (if forallb snd a then []
                        else [media_error topic_id TelegramError])).
Proof.
  rewrite forward_media_block.
  apply (block_run bot _ (media_error topic_id)).
Qed.

Lemma caption_text_plain (message : Tg.Message) (u : Tg.User) :
  PyStr.otruthy (Tg.caption message) = false ->
  caption_text message (user_link_of u) = attribution_header u.
Proof. intros H. unfold caption_text. now rewrite H. Qed.

Lemma caption_text_caption (message : Tg.Message) (u : Tg.User) (s : string) :
  Tg.caption message = Some s -> s <> "" ->
  caption_text message (user_link_of u)
  = attribution_header u +:+ ":" +:+ nl +:+ nl +:+ s.
Proof.
  intros H Hs. unfold caption_text. rewrite H.
  destruct s; [contradiction | reflexivity].
Qed.
End Media.

(** C3, as stated, fails: a photo with the caption "#suche Rad" is sent to
    Suche with a caption that is not the attribution header alone but the
    header followed by the original caption. *)
Lemma photo_caption_not_header :
  let message := photo_message (Some "#suche Rad") in
  let cap := attribution_header alice +:+ ":" +:+ nl +:+ nl +:+ "#suche Rad" in
  map fst (outbox (snd (handle_message default_config bot_ok 1000
                          (update_of message) initial_world)))
  = [send_message (-1003356712572) 4 cap;
     send_photo (-1003356712572) 4 "p-large" cap]
  /\ cap <> attribution_header alice.
Proof. vm_compute. split; [reflexivity | discriminate]. Qed.

(** C3, amended: when a message is dispatched to a destination and its
    payload is a photo, video, document, audio or voice (the first present
    in this order), exactly one call is made, the primitive of that kind, and
    its caption is the attribution header when the message has no (or an
    empty) caption, and the attribution header followed by a colon, an empty
    line and the original caption otherwise. *)
Theorem media_caption (cfg : Config) (bot : Bot) (message : Tg.Message)
    (topic_id : Z) (u : Tg.User) (w : World) :
  let cap := caption_text message (user_link_of u) in
  let sent c :=
    forward_media_to_topic cfg bot message topic_id (user_link_of u) w
    = (Ok tt,
       extend w [(c, bot (outbox w) c)]
         (if bot (outbox w) c then []
          else [media_error topic_id TelegramError])) in
  (PyStr.otruthy (Tg.caption message) = false -> cap = attribution_header u)
  /\ (forall s, Tg.caption message = Some s -> s <> "" ->
        cap = attribution_header u +:+ ":" +:+ nl +:+ nl +:+ s)
  /\ (Tg.photo message <> [] ->
      sent (send_photo (GROUP_ID cfg) topic_id
              (List.last (Tg.photo message) "") cap))
  /\ (Tg.photo message = [] ->
      (forall f, Tg.video message = Some f ->
         sent (send_video (GROUP_ID cfg) topic_id f cap))
      /\ (Tg.video message = None ->
          (forall f, Tg.document message = Some f ->
             sent (send_document (GROUP_ID cfg) topic_id f cap))
          /\ (Tg.document message = None ->
              (forall f, Tg.audio message = Some f ->
                 sent (send_audio (GROUP_ID cfg) topic_id f cap))
              /\ (Tg.audio message = None ->
                  forall f, Tg.voice message = Some f ->
                    sent (send_voice (GROUP_ID cfg) topic_id f cap))))).
Proof.
  cbv zeta. split; [apply caption_text_plain|].
  split; [apply caption_text_caption|].
  assert (Hone : forall c,
    media_plan cfg message topic_id (user_link_of u) = [c] ->
    forward_media_to_topic cfg bot message topic_id (user_link_of u) w
    = (Ok tt, extend w [(c, bot (outbox w) c)]
                (if bot (outbox w) c then []
                 else [media_error topic_id TelegramError]))).
  { intros c Hc. rewrite forward_media_run. cbv zeta. rewrite Hc. simpl.
    now destruct (bot (outbox w) c). }
  split.
  - intros Hp. apply Hone. unfold media_plan.
    destruct (Tg.photo message); [contradiction | reflexivity].
  - intros Hp. split.
    + intros f Hf. apply Hone. unfold media_plan. now rewrite Hp, Hf.
    + intros Hv. split.
      * intros f Hf. apply Hone. unfold media_plan. now rewrite Hp, Hv, Hf.
      * intros Hd. split.
        -- intros f Hf. apply Hone. unfold media_plan.
           now rewrite Hp, Hv, Hd, Hf.
        -- intros Ha f Hf. apply Hone. unfold media_plan.
           now rewrite Hp, Hv, Hd, Ha, Hf.
Qed.

Lemma media_caption_witness :
  forward_media_to_topic default_config bot_ok (photo_message None) 3
    (user_link_of alice) initial_world
  = (Ok tt,
     extend initial_world
       [(send_photo (-1003356712572) 3 "p-large" (attribution_header alice),
         true)] []).
Proof.
  destruct (media_caption default_config bot_ok (photo_message None) 3 alice
              initial_world) as (Hcap & _ & Hphoto & _).
  rewrite <- (Hcap eq_refl). apply Hphoto. discriminate.
Defined.

(** C8, as stated, fails: when the video-note send raises, the handler logs
    the error and sends no follow-up message with the attribution header. *)
Lemma video_note_without_follow_up :
  let w' := snd (handle_message default_config bot_no_note 1000
                   (update_of video_note_message) world_with_context) in
  outbox w' = [(send_video_note (-1003356712572) 3 "vn-1", false)]
  /\ errors w' = [media_error 3 TelegramError]
  /\ ~ In (send_message (-1003356712572) 3 (attribution_header alice))
          (map fst (outbox w')).
Proof.
  vm_compute. split; [reflexivity|]. split; [reflexivity|].
  intros [H|[]]. discriminate.
Qed.

(** C8, amended: when a message whose payload is a video note (no photo,
    video, document, audio or voice) is dispatched to a destination, the
    video note is sent without caption and, if that call returns, is
    followed by one text message to the same destination whose text is the
    attribution header (followed by the original caption if there is a
    non-empty one); if the call raises nothing follows.  When the payload is
    a sticker, the sticker is sent alone and the follow-up text message is
    sent exactly when the sticker call returned and the message has a
    non-empty caption. *)
Theorem captionless_media (cfg : Config) (bot : Bot) (message : Tg.Message)
    (topic_id : Z) (u : Tg.User) (w : World) :
  Tg.photo message = [] -> Tg.video message = None ->
  Tg.document message = None -> Tg.audio message = None ->
  Tg.voice message = None ->
  let cap := caption_text message (user_link_of u) in
  let follow := send_message (GROUP_ID cfg) topic_id cap in
  let out :=
    outbox (snd (forward_media_to_topic cfg bot message topic_id
                   (user_link_of u) w)) in
  (PyStr.otruthy (Tg.caption message) = false -> cap = attribution_header u)
  /\ (forall f, Tg.video_note message = Some f ->
        let c := send_video_note (GROUP_ID cfg) topic_id f in
        let ok := bot (outbox w) c in
        out = outbox w ++ (c, ok)
              :: (if ok
                  then [(follow, bot (outbox w ++ [(c, ok)]) follow)]
                  else []))
  /\ (Tg.video_note message = None ->
      forall f, Tg.sticker message = Some f ->
        let c := send_sticker (GROUP_ID cfg) topic_id f in
        let ok := bot (outbox w) c in
        out = outbox w ++ (c, ok)
              :: (if ok && PyStr.otruthy (Tg.caption message)
                  then [(follow, bot (outbox w ++ [(c, ok)]) follow)]
                  else [])).
Proof.
  intros Hp Hv Hd Ha Hvo. cbv zeta.
  split; [apply caption_text_plain|]. split.
  - intros f Hf. rewrite forward_media_run. cbv zeta. simpl.
    unfold media_plan. rewrite Hp, Hv, Hd, Ha, Hvo, Hf. simpl.
    destruct (bot (outbox w) _) eqn:E; [|reflexivity].
    now destruct (bot (outbox w ++ _) _).
  - intros Hn f Hf. rewrite forward_media_run. cbv zeta. simpl.
    unfold media_plan. rewrite Hp, Hv, Hd, Ha, Hvo, Hn, Hf. simpl.
    destruct (bot (outbox w) _) eqn:E; simpl; [|reflexivity].
    destruct (PyStr.otruthy (Tg.caption message)); simpl; [|reflexivity].
    now destruct (bot (outbox w ++ _) _).
Qed.

Lemma captionless_media_witness :
  outbox (snd (forward_media_to_topic default_config bot_ok
                 video_note_message 3 (user_link_of alice) initial_world))
  = [(send_video_note (-1003356712572) 3 "vn-1", true);
     (send_message (-1003356712572) 3 (attribution_header alice), true)].
Proof.
  destruct (captionless_media default_config bot_ok video_note_message 3
              alice initial_world eq_refl eq_refl eq_refl eq_refl eq_refl)
    as (Hcap & Hnote & _).
  rewrite <- (Hcap eq_refl). apply (Hnote "vn-1" eq_refl).
Defined.

(** ** The end-to-end scenarios *)

(** A: a marked message goes to Biete and leaves a context. *)
Example scenario_A :
  observed (handle_message default_config bot_ok 1000
              (update_of (plain_message (Some alice) "#biete Selling a bike"))
              initial_world)
  = (Ok tt,
     [(send_message (-1003356712572) 3
         (attribution_header alice +:+ ":" +:+ nl +:+ nl
          +:+ "#biete Selling a bike"), true)],
     [(77, {| topics := [3]; timestamp := 1000 |})]).
Proof. vm_compute. reflexivity. Qed.

(** B: a follow-up within the window goes to Biete, the context keeps its
    time stamp. *)
Example scenario_B :
  observed (handle_message default_config bot_ok 300000000
              (update_of (plain_message (Some alice) "still available"))
              world_with_context)
  = (Ok tt,
     [(send_message (-1003356712572) 3
         (attribution_header alice +:+ ":" +:+ nl +:+ nl
          +:+ "still available"), true)],
     [(77, {| topics := [3]; timestamp := 0 |})]).
Proof. vm_compute. reflexivity. Qed.

(** C: after the window nothing is sent and the entry is gone. *)
Example scenario_C :
  observed (handle_message default_config bot_ok 300000001
              (update_of (plain_message (Some alice) "still available"))
              world_with_context)
  = (Ok tt, [], []).
Proof. vm_compute. reflexivity. Qed.

(** D: both markers, two sends, the first of which fails. *)
Example scenario_D :
  observed (handle_message default_config
              (fun tr _ => negb (Nat.eqb (length tr) 0)) 1000
              (update_of (plain_message (Some alice) "#biete #suche bundle"))
              initial_world)
  = (Ok tt,
     [(send_message (-1003356712572) 3
         (attribution_header alice +:+ ":" +:+ nl +:+ nl
          +:+ "#biete #suche bundle"), false);
      (send_message (-1003356712572) 4
         (attribution_header alice +:+ ":" +:+ nl +:+ nl
          +:+ "#biete #suche bundle"), true)],
     [(77, {| topics := [3; 4]; timestamp := 1000 |})]).
Proof. vm_compute. reflexivity. Qed.

(** E: the text send fails, the photo is sent all the same. *)
Example scenario_E :
  observed (handle_message default_config bot_no_text 1000
              (update_of (photo_message (Some "#suche looking for this")))
              initial_world)
  = (Ok tt,
     [(send_message (-1003356712572) 4
         (attribution_header alice +:+ ":" +:+ nl +:+ nl
          +:+ "#suche looking for this"), false);
      (send_photo (-1003356712572) 4 "p-large"
         (attribution_header alice +:+ ":" +:+ nl +:+ nl
          +:+ "#suche looking for this"), true)],
     [(77, {| topics := [4]; timestamp := 1000 |})]).
Proof. vm_compute. reflexivity. Qed.

(** A marked message of another thread: nothing is sent, nothing is
    stored. *)
Example scenario_other_thread :
  observed (handle_message default_config bot_ok 1000
              (update_of
                 {| Tg.chat_id := -1003356712572; Tg.message_thread_id := Some 3;
                    Tg.text := Some "#biete Rad"; Tg.caption := None;
                    Tg.from_user := Some alice; Tg.photo := [];
                    Tg.video := None; Tg.document := None; Tg.audio := None;
                    Tg.voice := None; Tg.video_note := None;
                    Tg.sticker := None |})
              world_with_context)
  = (Ok tt, [], [(77, {| topics := [3]; timestamp := 0 |})]).
Proof. vm_compute. reflexivity. Qed.


(** * Further properties of the code *)

(** ** The store under histories *)

(** X1: after any history of [put]s and [get]s none of which happened later
    than [now], what [get] returns for a sender is decided by that sender's
    most recent [put] alone: nothing if there is none or if it is older than
    the window, its topics otherwise. *)
Theorem store_history_last_put (cfg : Config) (now uid : Z)
    (ops : list StoreOp) :
  not_after now ops ->
  fst (get_active_topics_for_user cfg now uid (run_ops cfg ops ∅)) =
  match last_put uid ops with
  | None => []
  | Some (t0, tps) =>
      if now - t0 >? timedelta_minutes (CONTEXT_TIME_WINDOW_MINUTES cfg)
      then [] else tps
  end.
Proof. apply get_after_history. Qed.

Lemma store_history_last_put_witness :
  fst (get_active_topics_for_user default_config 200000000 77
         (run_ops default_config
            [op_put 0 77 [3]; op_get 50 88; op_put 100 77 [3; 4];
             op_put 150 88 [4]; op_get 170 77] ∅))
  = [3; 4].
Proof.
  apply (store_history_last_put default_config 200000000 77
           [op_put 0 77 [3]; op_get 50 88; op_put 100 77 [3; 4];
            op_put 150 88 [4]; op_get 170 77]).
  repeat constructor; simpl; lia.
Defined.

(** X2: the operations of other senders never touch a sender's entry,
    however late they happen: an entry that its own sender does not read
    stays in the store, expired or not. *)
Theorem store_frame (cfg : Config) (uid : Z) (ops : list StoreOp)
    (ctx : gmap Z UserContext) :
  Forall (fun op => op_user op <> uid) ops ->
  run_ops cfg ops ctx !! uid = ctx !! uid.
Proof.
  revert ctx. induction ops as [|op ops IH]; intros ctx H; simpl.
  - reflexivity.
  - apply Forall_cons in H as [Hop H]. rewrite (IH _ H).
    destruct op as [t u tps|t u]; simpl in *.
    + now apply put_lookup_other.
    + now apply get_other.
Qed.

Lemma store_frame_witness :
  run_ops default_config
    [op_get 900000000 88; op_put 900000001 88 [4]; op_get 999999999999 99]
    (update_user_context 0 77 [3] ∅) !! 77
  = Some {| topics := [3]; timestamp := 0 |}.
Proof.
  rewrite (store_frame default_config 77
             [op_get 900000000 88; op_put 900000001 88 [4];
              op_get 999999999999 99]).
  - reflexivity.
  - repeat constructor; simpl; discriminate.
Defined.

(** X3: once a [get] has returned nothing for a sender, every later [get]
    for that sender returns nothing as well, at any clock value (also an
    earlier one), until the next [put]. *)
Theorem store_empty_stays_empty (cfg : Config) (now now' uid : Z)
    (ctx : gmap Z UserContext) :
  fst (get_active_topics_for_user cfg now uid ctx) = [] ->
  fst (get_active_topics_for_user cfg now' uid
         (snd (get_active_topics_for_user cfg now uid ctx))) = [].
Proof.
  intros H. rewrite get_fst in *.
  unfold get_active_topics_for_user.
  destruct (ctx !! uid) as [c|] eqn:E; simpl; [|now rewrite E].
  destruct (now - timestamp c >? _); simpl.
  - now rewrite lookup_delete_eq.
  - rewrite E, H. now destruct (_ >? _).
Qed.

Lemma store_empty_stays_empty_witness :
  fst (get_active_topics_for_user default_config 5 77
         (snd (get_active_topics_for_user default_config 300000001 77
                 (update_user_context 0 77 [3] ∅)))) = [].
Proof.
  apply (store_empty_stays_empty default_config 300000001 5 77
           (update_user_context 0 77 [3] ∅)).
  reflexivity.
Defined.

(** ** One media dispatch *)

Lemma attempts_until_failure_length (bot : Bot) tr cs :
  (length (attempts_until_failure bot tr cs) <= length cs)%nat.
Proof.
  revert tr. induction cs as [|c r IH]; intros tr; simpl; [lia|].
  destruct (bot tr c); simpl; [specialize (IH (tr ++ [(c, true)]))|]; lia.
Qed.

Lemma media_plan_length (cfg : Config) message t link :
  (length (media_plan cfg message t link) <= 2)%nat.
Proof.
  unfold media_plan. cbv zeta.
  repeat match goal with
         | |- context [if ?b then _ else _] => destruct b
         end; simpl; lia.
Qed.

Lemma media_plan_none (cfg : Config) message t link :
  has_media message = false -> media_plan cfg message t link = [].
Proof.
  unfold has_media, media_plan. cbv zeta. intros H.
  repeat (apply orb_false_elim in H as [H ?]).
  now repeat match goal with
             | E : ?b = false |- context [if ?b then _ else _] => rewrite E
             end.
Qed.

(** X4: [forward_media_to_topic] never raises and never touches the context
    store.  It attempts at most two calls, all of them to the given topic of
    the configured group, and logs exactly one error record if one of them
    failed and none otherwise; for a message without payload it does
    nothing at all. *)
Theorem forward_media_contained (cfg : Config) (bot : Bot)
    (message : Tg.Message) (topic_id : Z) (user_link : string) (w : World) :
  exists a es,
    forward_media_to_topic cfg bot message topic_id user_link w
    = (Ok tt, extend w a es)
    /\ (length a <= 2)%nat
    /\ (forall x, In x a ->
          call_thread (fst x) = topic_id /\ call_chat (fst x) = GROUP_ID cfg)
    /\ es = (if Nat.eqb (failures a) 0 then []
             else [media_error topic_id TelegramError])
    /\ (failures a <= 1)%nat
    /\ (has_media message = false -> a = [] /\ es = []).
Proof.
  rewrite forward_media_run. cbv zeta.
  set (a := attempts_until_failure bot (outbox w)
              (media_plan cfg message topic_id user_link)).
  exists a, (if forallb snd a then [] else [media_error topic_id TelegramError]).
  pose proof (attempts_until_failure_failures bot (outbox w)
                (media_plan cfg message topic_id user_link)) as Hf.
  fold a in Hf.
  split; [reflexivity|]. split.
  { pose proof (attempts_until_failure_length bot (outbox w)
                  (media_plan cfg message topic_id user_link)).
    pose proof (media_plan_length cfg message topic_id user_link).
    fold a in H. lia. }
  split.
  { intros x Hx. apply attempts_until_failure_sub in Hx.
    eapply media_plan_calls, Hx. }
  split; [rewrite Hf; now destruct (forallb snd a)|].
  split; [rewrite Hf; destruct (forallb snd a); lia|].
  intros Hm. subst a. rewrite (media_plan_none cfg _ _ _ Hm). now split.
Qed.

(** ** The handler on any update *)

Section AnyUpdate.
Variable cfg : Config.
Variable bot : Bot.

Lemma no_sender_raises_any (message : Tg.Message) (w : World) (now : Z) :
  Tg.chat_id message = GROUP_ID cfg ->
  Tg.message_thread_id message = Some (HAUPTGRUPPE_TOPIC_ID cfg) ->
  Tg.from_user message = None ->
  handle_message cfg bot now (update_of message) w = (Raise AttributeError, w).
Proof.
  intros Hchat Hthread Hu. unfold handle_message, update_of. simpl.
  rewrite Hchat, Z.eqb_refl, Hthread. simpl.
  rewrite bool_decide_eq_true_2 by reflexivity. simpl.
  now rewrite Hu.
Qed.

(** Either the handler leaves the world as it is (returning on an update it
    drops, or raising for want of a sender), or the update carries a message
    of the monitored thread that has a sender. *)
Lemma handle_message_cases (now : Z) (update : Tg.Update) (w : World) :
  (snd (handle_message cfg bot now update w) = w
   /\ sender_of update = None \/
   snd (handle_message cfg bot now update w) = w
   /\ (forall message, Tg.message update = Some message ->
         ~ monitored cfg message))
  \/ exists message u,
       update = {| Tg.message := Some message |}
       /\ monitored cfg message /\ Tg.from_user message = Some u.
Proof.
  destruct update as [[message|]]; [|left; left; now split].
  destruct (Z.eq_dec (Tg.chat_id message) (GROUP_ID cfg)) as [Hc|Hc].
  - destruct (decide (Tg.message_thread_id message
                      = Some (HAUPTGRUPPE_TOPIC_ID cfg))) as [Ht|Ht].
    + destruct (Tg.from_user message) as [u|] eqn:Hu.
      * right. exists message, u. repeat split; assumption.
      * left. left. split.
        -- change {| Tg.message := Some message |} with (update_of message).
           rewrite (no_sender_raises_any message w now Hc Ht Hu). reflexivity.
        -- unfold sender_of. simpl. now rewrite Hu.
    + left. right. split.
      * change {| Tg.message := Some message |} with (update_of message).
        now rewrite ingress_drop by (now right).
      * intros m [= <-] [_ H]. contradiction.
  - left. right. split.
    + change {| Tg.message := Some message |} with (update_of message).
      now rewrite ingress_drop by (now left).
    + intros m [= <-] [H _]. contradiction.
Qed.
End AnyUpdate.

Section Steps.
Variable cfg : Config.
Variable bot : Bot.

Lemma target_topics_in (tl : string) (d : Z) :
  In d (target_topics cfg tl) ->
  d = BIETE_TOPIC_ID cfg \/ d = SUCHE_TOPIC_ID cfg.
Proof.
  rewrite target_topics_cases.
  destruct (PyStr.contains "#biete" tl), (PyStr.contains "#suche" tl);
    simpl; intuition.
Qed.

Lemma nonempty_true {A} (l : list A) : nonempty l = true <-> l <> [].
Proof. destruct l; simpl; split; congruence. Qed.

Lemma final_destinations_ok now message u (ctx : gmap Z UserContext) d :
  context_ok cfg ctx ->
  In d (final_destinations cfg now message u ctx) ->
  d = BIETE_TOPIC_ID cfg \/ d = SUCHE_TOPIC_ID cfg.
Proof.
  intros Hok. unfold final_destinations. cbv zeta.
  destruct (nonempty (target_topics cfg _)); [apply target_topics_in|].
  destruct (has_media message || _); [|intros []].
  rewrite get_fst. destruct (ctx !! Tg.id u) as [c|] eqn:E; [|intros []].
  destruct (_ >? _); [intros []|]. now apply (Hok _ _ E).
Qed.

Lemma next_context_ok now message u (ctx : gmap Z UserContext) :
  context_ok cfg ctx -> context_ok cfg (next_context cfg now message u ctx).
Proof.
  intros Hok. unfold next_context. cbv zeta.
  destruct (nonempty (target_topics cfg _)) eqn:Ekw.
  - intros uid c. unfold update_user_context.
    destruct (decide (Tg.id u = uid)) as [->|Hne].
    + rewrite lookup_insert_eq. intros [= <-]. simpl. split.
      * now apply nonempty_true.
      * apply target_topics_in.
    + rewrite lookup_insert_ne by exact Hne. apply Hok.
  - destruct (has_media message || _); [|exact Hok].
    destruct (get_store_cases cfg now (Tg.id u) ctx) as [->|(-> & _)];
      [exact Hok|].
    intros uid c H. apply lookup_delete_Some in H as [_ H].
    exact (Hok _ _ H).
Qed.

Lemma next_context_frame now message u (ctx : gmap Z UserContext) uid :
  Tg.id u <> uid -> next_context cfg now message u ctx !! uid = ctx !! uid.
Proof.
  intros Hne. unfold next_context. cbv zeta.
  destruct (nonempty (target_topics cfg _)); [now apply put_lookup_other|].
  destruct (has_media message || _); [now apply get_other | reflexivity].
Qed.

Lemma world_same (w : World) :
  extend (with_context w (user_forwarding_context w)) [] [] = w.
Proof. now rewrite extend_nil; destruct w. Qed.

(** One run of the handler, on any update. *)
Lemma handle_step (now : Z) (update : Tg.Update) (w : World) :
  exists ctx' a es,
    snd (handle_message cfg bot now update w)
    = extend (with_context w ctx') a es
    /\ length es = failures a
    /\ (forall x, In x a -> call_chat (fst x) = GROUP_ID cfg)
    /\ (forall uid, sender_of update <> Some uid ->
          ctx' !! uid = user_forwarding_context w !! uid)
    /\ (context_ok cfg (user_forwarding_context w) ->
        context_ok cfg ctx' /\ forall x, In x a -> routed cfg (fst x)).
Proof.
  destruct (handle_message_cases cfg bot now update w)
    as [[[Hw _]|[Hw _]]|(message & u & -> & Hmon & Hu)].
  1,2: exists (user_forwarding_context w), [], [];
       rewrite Hw, world_same;
       (split; [reflexivity|]); (split; [reflexivity|]);
       (split; [intros x []|]); (split; [reflexivity|]);
       intros Hok; (split; [exact Hok | intros x []]).
  rewrite (handle_message_run cfg bot now message u w Hmon Hu). cbv zeta.
  pose proof (blocks_sub bot (outbox w)
                (dispatch_plan cfg
                   (final_destinations cfg now message u
                      (user_forwarding_context w))
                   message (user_link_of u) (text_of message))) as Hsub.
  pose proof (blocks_errors bot (outbox w)
                (dispatch_plan cfg
                   (final_destinations cfg now message u
                      (user_forwarding_context w))
                   message (user_link_of u) (text_of message))) as Herr.
  destruct (attempts_of_blocks bot (outbox w) _) as [a es].
  simpl in Hsub, Herr.
  exists (next_context cfg now message u (user_forwarding_context w)), a, es.
  split; [reflexivity|]. split; [exact Herr|]. split.
  { intros x Hx. destruct (Hsub x Hx) as (b & Hb & Hc).
    eapply dispatch_plan_calls; eassumption. }
  split.
  { intros uid Hs. apply next_context_frame. intros Heq. apply Hs.
    unfold sender_of. simpl. now rewrite Hu, Heq. }
  intros Hok. split; [now apply next_context_ok|].
  intros x Hx. destruct (Hsub x Hx) as (b & Hb & Hc).
  destruct (dispatch_plan_calls cfg _ _ _ _ _ _ Hb Hc) as [Hd Hg].
  split; [exact Hg|]. eapply final_destinations_ok; eassumption.
Qed.

End Steps.

(** X5: an update without a message, or with a message of another chat or
    of another thread (a missing thread id included), is dropped: the
    handler returns, no call is attempted, nothing is logged and the store
    is as before, even when the text holds a marker. *)
Theorem foreign_update_dropped (cfg : Config) (bot : Bot) (now : Z)
    (update : Tg.Update) (w : World) :
  (forall message, Tg.message update = Some message ->
     Tg.chat_id message <> GROUP_ID cfg
     \/ Tg.message_thread_id message <> Some (HAUPTGRUPPE_TOPIC_ID cfg)) ->
  handle_message cfg bot now update w = (Ok tt, w).
Proof.
  intros H. destruct update as [[message|]]; [|reflexivity].
  apply (ingress_drop cfg bot now message w), H. reflexivity.
Qed.

Lemma foreign_update_dropped_witness :
  handle_message default_config bot_ok 1000
    (update_of
       {| Tg.chat_id := -1003356712572; Tg.message_thread_id := None;
          Tg.text := Some "#biete Rad"; Tg.caption := None;
          Tg.from_user := Some alice; Tg.photo := ["p"];
          Tg.video := None; Tg.document := None; Tg.audio := None;
          Tg.voice := None; Tg.video_note := None; Tg.sticker := None |})
    world_with_context
  = (Ok tt, world_with_context).
Proof.
  apply foreign_update_dropped. intros message [= <-]. right. discriminate.
Defined.

(** X6: a message of the monitored thread that has a sender but neither a
    marker, nor non-blank text, nor a payload changes nothing: no call, no
    log record, and the sender's context is not even read, so an expired
    entry stays in the store. *)
Theorem blank_message_ignored (cfg : Config) (bot : Bot) (now : Z)
    (message : Tg.Message) (u : Tg.User) (w : World) :
  monitored cfg message -> Tg.from_user message = Some u ->
  PyStr.strip_truthy (text_of message) = false ->
  has_media message = false ->
  handle_message cfg bot now (update_of message) w = (Ok tt, w).
Proof.
  intros Hmon Hu Hblank Hmedia. unfold update_of.
  rewrite (handle_message_run cfg bot now message u w Hmon Hu). cbv zeta.
  assert (Hkw : nonempty (target_topics cfg (PyStr.lower (text_of message)))
                = false).
  { destruct (nonempty _) eqn:E; [|reflexivity].
    apply nonempty_true, (target_topics_not_blank cfg) in E. congruence. }
  unfold final_destinations, next_context. cbv zeta.
  rewrite Hkw, Hmedia, Hblank. simpl. rewrite dispatch_plan_nil. simpl.
  now rewrite world_same.
Qed.

Lemma blank_message_ignored_witness :
  handle_message default_config bot_ok 999999999999
    (update_of (plain_message (Some alice) "   ")) world_with_context
  = (Ok tt, world_with_context).
Proof.
  apply (blank_message_ignored default_config bot_ok 999999999999
           (plain_message (Some alice) "   ") alice world_with_context).
  - split; reflexivity.
  - reflexivity.
  - reflexivity.
  - reflexivity.
Defined.

(** X7: the order of a dispatch.  The text sends to all destinations, in
    the order of the destinations, are attempted first; the media sends
    follow only after the last text send, each to one of the destinations,
    and there is none when the message has no payload. *)
Theorem text_sends_before_media (cfg : Config) (bot : Bot) (now : Z)
    (message : Tg.Message) (u : Tg.User) (w : World) :
  monitored cfg message -> Tg.from_user message = Some u ->
  let ctx := user_forwarding_context w in
  let dests := final_destinations cfg now message u ctx in
  exists a_text a_media es,
    handle_message cfg bot now (update_of message) w
    = (Ok tt, extend (with_context w (next_context cfg now message u ctx))
                (a_text ++ a_media) es)
    /\ map fst a_text
       = (if PyStr.strip_truthy (text_of message)
          then map (fun d => text_call cfg d (user_link_of u) (text_of message))
                   dests
          else [])
    /\ (forall x, In x a_media ->
          exists d, In d dests
            /\ In (fst x) (media_plan cfg message d (user_link_of u)))
    /\ (has_media message = false -> a_media = []).
Proof.
  intros Hmon Hu ctx dests. unfold update_of.
  rewrite (handle_message_run cfg bot now message u w Hmon Hu). cbv zeta.
  fold ctx. fold dests. unfold dispatch_plan.
  rewrite attempts_of_blocks_app.
  pose proof (single_blocks_calls bot (outbox w) dests
                (fun t => text_error t TelegramError)
                (fun t => text_call cfg t (user_link_of u) (text_of message)))
    as Htext.
  destruct (PyStr.strip_truthy (text_of message)).
  - destruct (attempts_of_blocks bot (outbox w) _) as [a1 e1]. simpl in Htext.
    pose proof (blocks_sub bot (outbox w ++ a1)
                  (if has_media message
                   then map (fun t => (media_error t TelegramError,
                                       media_plan cfg message t (user_link_of u)))
                            dests
                   else [])) as Hsub.
    destruct (attempts_of_blocks bot (outbox w ++ a1) _) as [a2 e2] eqn:E2.
    exists a1, a2, (e1 ++ e2). split; [reflexivity|]. split; [exact Htext|].
    split.
    + intros x Hx. destruct (Hsub x Hx) as (b & Hb & Hc).
      destruct (has_media message); [|destruct Hb].
      apply in_map_iff in Hb as (d & <- & Hd). eauto.
    + intros Hm. rewrite Hm in E2. now injection E2 as <- _.
  - simpl.
    pose proof (blocks_sub bot (outbox w ++ [])
                  (if has_media message
                   then map (fun t => (media_error t TelegramError,
                                       media_plan cfg message t (user_link_of u)))
                            dests
                   else [])) as Hsub.
    destruct (attempts_of_blocks bot (outbox w ++ []) _) as [a2 e2] eqn:E2.
    exists [], a2, e2. split; [reflexivity|]. split; [reflexivity|]. split.
    + intros x Hx. destruct (Hsub x Hx) as (b & Hb & Hc).
      destruct (has_media message); [|destruct Hb].
      apply in_map_iff in Hb as (d & <- & Hd). eauto.
    + intros Hm. rewrite Hm in E2. now injection E2 as <- _.
Qed.

Lemma text_sends_before_media_witness :
  exists a_text a_media es,
    handle_message default_config bot_ok 1000
      (update_of (photo_message (Some "#biete #suche Rad"))) initial_world
    = (Ok tt,
       extend (with_context initial_world
                 (update_user_context 1000 77 [3; 4] ∅))
         (a_text ++ a_media) es)
    /\ map fst a_text
       = map (fun d => text_call default_config d (user_link_of alice)
                         "#biete #suche Rad") [3; 4].
Proof.
  destruct (text_sends_before_media default_config bot_ok 1000
              (photo_message (Some "#biete #suche Rad")) alice initial_world)
    as (a_text & a_media & es & Hrun & Htext & _).
  - split; reflexivity.
  - reflexivity.
  - exists a_text, a_media, es. split; [exact Hrun | exact Htext].
Defined.

(** X8: whatever the update and the outcomes of the calls, the handler
    never changes the context of anyone but the sender of the update. *)
Theorem other_contexts_untouched (cfg : Config) (bot : Bot) (now : Z)
    (update : Tg.Update) (w : World) (uid : Z) :
  sender_of update <> Some uid ->
  user_forwarding_context (snd (handle_message cfg bot now update w)) !! uid
  = user_forwarding_context w !! uid.
Proof.
  intros Hs.
  destruct (handle_step cfg bot now update w)
    as (ctx' & a & es & -> & _ & _ & Hframe & _).
  simpl. now apply Hframe.
Qed.

Lemma other_contexts_untouched_witness :
  user_forwarding_context
    (snd (handle_message default_config bot_ok 999999999999
            (update_of (plain_message
                          (Some {| Tg.id := 88; Tg.first_name := "Bob" |})
                          "#suche Helm"))
            world_with_context)) !! 77
  = Some {| topics := [3]; timestamp := 0 |}.
Proof.
  rewrite (other_contexts_untouched default_config bot_ok 999999999999
             (update_of (plain_message
                           (Some {| Tg.id := 88; Tg.first_name := "Bob" |})
                           "#suche Helm"))
             world_with_context 77).
  - reflexivity.
  - discriminate.
Defined.

(** X9: whatever the update and the outcomes of the calls, the handler only
    appends: the calls made and the error records logged before are kept;
    every new call goes to the configured group, and the new error records
    are as many as the new failed calls. *)
Theorem handler_only_appends (cfg : Config) (bot : Bot) (now : Z)
    (update : Tg.Update) (w : World) :
  let w' := snd (handle_message cfg bot now update w) in
  exists a es,
    outbox w' = outbox w ++ a
    /\ errors w' = errors w ++ es
    /\ length es = failures a
    /\ forall x, In x a -> call_chat (fst x) = GROUP_ID cfg.
Proof.
  cbv zeta.
  destruct (handle_step cfg bot now update w)
    as (ctx' & a & es & -> & Herr & Hchat & _).
  exists a, es. repeat split; assumption.
Qed.

(** ** Invariants of runs *)

Lemma run_updates_invariant (cfg : Config) (bot : Bot)
    (updates : list (Z * Tg.Update)) (w : World) :
  context_ok cfg (user_forwarding_context w) ->
  Forall (fun x => routed cfg (fst x)) (outbox w) ->
  length (errors w) = failures (outbox w) ->
  let w' := run_updates cfg bot updates w in
  context_ok cfg (user_forwarding_context w')
  /\ Forall (fun x => routed cfg (fst x)) (outbox w')
  /\ length (errors w') = failures (outbox w').
Proof.
  revert w. induction updates as [|[now update] updates IH];
    intros w Hok Hout Herr; simpl; [auto|].
  destruct (handle_step cfg bot now update w)
    as (ctx' & a & es & Hw & Hes & _ & _ & Hinv).
  destruct (Hinv Hok) as [Hok' Hrouted].
  apply IH; rewrite Hw; simpl.
  - exact Hok'.
  - apply Forall_app. split; [exact Hout|]. apply List.Forall_forall.
    exact Hrouted.
  - rewrite length_app, failures_app. lia.
Qed.

(** X10: in every run of the handler over any sequence of updates, started
    with the empty store, every call ever attempted goes to the configured
    group and to the Biete or the Suche topic, every stored context names at
    least one topic and only these two, and the error records logged are as
    many as the calls that failed. *)
Theorem run_invariants (cfg : Config) (bot : Bot)
    (updates : list (Z * Tg.Update)) :
  let w := run_updates cfg bot updates initial_world in
  (forall x, In x (outbox w) -> routed cfg (fst x))
  /\ context_ok cfg (user_forwarding_context w)
  /\ length (errors w) = failures (outbox w).
Proof.
  destruct (run_updates_invariant cfg bot updates initial_world)
    as (Hok & Hout & Herr).
  - intros uid c H. simpl in H. rewrite lookup_empty in H. discriminate.
  - constructor.
  - reflexivity.
  - cbv zeta. split; [|split; assumption].
    now apply List.Forall_forall.
Qed.

(** ** A marker message followed by a follow-up *)

Lemma with_context_same (w : World) :
  with_context w (user_forwarding_context w) = w.
Proof. now destruct w. Qed.

Lemma keyword_context (cfg : Config) (bot : Bot) (now : Z)
    (message : Tg.Message) (u : Tg.User) (w : World) :
  monitored cfg message -> Tg.from_user message = Some u ->
  target_topics cfg (PyStr.lower (text_of message)) <> [] ->
  user_forwarding_context (snd (handle_message cfg bot now (update_of message) w))
  = update_user_context now (Tg.id u)
      (target_topics cfg (PyStr.lower (text_of message)))
      (user_forwarding_context w).
Proof.
  intros Hmon Hu Hkw. unfold update_of.
  rewrite (handle_message_run cfg bot now message u w Hmon Hu). cbv zeta.
  destruct (attempts_of_blocks bot (outbox w) _) as [a es]. simpl.
  unfold next_context. cbv zeta.
  apply nonempty_true in Hkw. now rewrite Hkw.
Qed.

(** X11: the sticky context, end to end.  When the handler has processed a
    marker message of a sender at time [t0] and next processes a message of
    the same sender without marker but with content at time [t1], then, if
    [t1 - t0] does not exceed the window, the follow-up is dispatched to the
    destinations of the marker message (every one of them gets its text send
    when the text is not blank and its media send when there is a payload)
    and the store is left as it was, the time stamp not renewed; if
    [t1 - t0] exceeds the window, nothing is sent and the sender's entry is
    deleted. *)
Theorem sticky_context (cfg : Config) (bot : Bot) (t0 t1 : Z)
    (m0 m1 : Tg.Message) (u0 u1 : Tg.User) (w : World) :
  monitored cfg m0 -> Tg.from_user m0 = Some u0 ->
  target_topics cfg (PyStr.lower (text_of m0)) <> [] ->
  monitored cfg m1 -> Tg.from_user m1 = Some u1 -> Tg.id u1 = Tg.id u0 ->
  target_topics cfg (PyStr.lower (text_of m1)) = [] ->
  has_media m1 || PyStr.strip_truthy (text_of m1) = true ->
  let kw := target_topics cfg (PyStr.lower (text_of m0)) in
  let window := timedelta_minutes (CONTEXT_TIME_WINDOW_MINUTES cfg) in
  let w1 := snd (handle_message cfg bot t0 (update_of m0) w) in
  (t1 - t0 <= window ->
   exists new es,
     handle_message cfg bot t1 (update_of m1) w1 = (Ok tt, extend w1 new es)
     /\ (forall x, In x new -> In (call_thread (fst x)) kw)
     /\ (PyStr.strip_truthy (text_of m1) = true ->
         forall d, In d kw ->
           In (text_call cfg d (user_link_of u1) (text_of m1)) (map fst new))
     /\ (has_media m1 = true ->
         forall d, In d kw ->
           exists c cs,
             media_plan cfg m1 d (user_link_of u1) = c :: cs
             /\ In c (map fst new)))
  /\ (t1 - t0 > window ->
      handle_message cfg bot t1 (update_of m1) w1
      = (Ok tt,
         with_context w1 (delete (Tg.id u0) (user_forwarding_context w1)))).
Proof.
  intros Hmon0 Hu0 Hkw0 Hmon1 Hu1 Hid Hkw1 Hcontent kw window w1.
  pose proof (keyword_context cfg bot t0 m0 u0 w Hmon0 Hu0 Hkw0) as Hctx.
  fold w1 in Hctx. fold kw in Hctx.
  assert (Hlook : user_forwarding_context w1 !! Tg.id u1
                  = Some {| topics := kw; timestamp := t0 |}).
  { rewrite Hctx, Hid. apply put_lookup. }
  unfold update_of at 1 2.
  rewrite (handle_message_run cfg bot t1 m1 u1 w1 Hmon1 Hu1). cbv zeta.
  unfold final_destinations, next_context. cbv zeta.
  rewrite Hkw1, Hcontent. simpl nonempty. cbv iota.
  split.
  - intros Hlive.
    rewrite (get_live cfg t1 (Tg.id u1) _ _ Hlook) by exact Hlive. simpl.
    rewrite with_context_same.
    pose proof (blocks_sub bot (outbox w1)
                  (dispatch_plan cfg kw m1 (user_link_of u1) (text_of m1)))
      as Hsub.
    pose proof (blocks_head bot (outbox w1)
                  (dispatch_plan cfg kw m1 (user_link_of u1) (text_of m1)))
      as Hhead.
    destruct (attempts_of_blocks bot (outbox w1) _) as [new es].
    simpl in Hsub, Hhead. exists new, es. split; [reflexivity|]. split.
    { intros x Hx. destruct (Hsub x Hx) as (b & Hb & Hc).
      eapply dispatch_plan_calls; eassumption. }
    split.
    + intros Htext d Hd. apply (Hhead (text_error d TelegramError) _ []).
      unfold dispatch_plan. apply in_app_iff. left. rewrite Htext.
      apply in_map_iff. exists d. auto.
    + intros Hmedia d Hd.
      destruct (media_plan_head cfg m1 d (user_link_of u1) Hmedia)
        as (c & cs & Hplan).
      exists c, cs. split; [exact Hplan|].
      apply (Hhead (media_error d TelegramError) c cs).
      unfold dispatch_plan. apply in_app_iff. right. rewrite Hmedia.
      apply in_map_iff. exists d. rewrite Hplan. auto.
  - intros Hexp.
    rewrite (get_expired cfg t1 (Tg.id u1) _ _ Hlook) by exact Hexp. simpl.
    rewrite dispatch_plan_nil. simpl. now rewrite extend_nil, Hid.
Qed.

Lemma sticky_context_witness :
  handle_message default_config bot_ok 300001001
    (update_of (photo_message None))
    (snd (handle_message default_config bot_ok 1000
            (update_of (plain_message (Some alice) "#biete Rad"))
            initial_world))
  = (Ok tt,
     with_context
       (snd (handle_message default_config bot_ok 1000
               (update_of (plain_message (Some alice) "#biete Rad"))
               initial_world))
       (delete 77
          (user_forwarding_context
             (snd (handle_message default_config bot_ok 1000
                     (update_of (plain_message (Some alice) "#biete Rad"))
                     initial_world))))).
Proof.
  apply (sticky_context default_config bot_ok 1000 300001001
           (plain_message (Some alice) "#biete Rad") (photo_message None)
           alice alice initial_world).
  - split; reflexivity.
  - reflexivity.
  - vm_compute. congruence.
  - split; reflexivity.
  - reflexivity.
  - reflexivity.
  - reflexivity.
  - reflexivity.
  - reflexivity.
Defined.


(** ** The environment file *)

Example splitlines_ex :
  Env.splitlines env_file
  = ["# bot settings"; "BOT_TOKEN = abc"; ""; "  GROUP_ID=-100";
     "#BIETE_TOPIC_ID=9"; "no assignment here"; "GROUP_ID=7"; "URL=a=b"]
  /\ Env.splitlines "" = [] /\ Env.splitlines nl = [""]
  /\ Env.splitlines ("a" +:+ nl +:+ nl) = ["a"; ""].
Proof. vm_compute. auto. Qed.

Example load_env_ex :
  let e := Env.environ_of
             (Env.load_env (Some env_file) {["GROUP_ID" := "1"]}) in
  e !! "GROUP_ID" = Some "1" /\ e !! "BOT_TOKEN" = Some "abc"
  /\ e !! "URL" = Some "a=b" /\ e !! "#BIETE_TOPIC_ID" = None
  /\ e !! "BIETE_TOPIC_ID" = None /\ size e = 3%nat.
Proof. vm_compute. auto 10. Qed.

Module EnvFacts.
Import Env.

(** One turn of the loop, by the assignment of the line. *)
Lemma load_env_lines_cons (line : string) (rest : list string)
    (environ : gmap string string) :
  load_env_lines (line :: rest) environ =
  match parse_line line with
  | None => load_env_lines rest environ
  | Some (key, value) =>
      match setdefault key value environ with
      | Loaded environ' => load_env_lines rest environ'
      | ValueError environ' => ValueError environ'
      | OSError environ' => OSError environ'
      end
  end.
Proof.
  unfold parse_line. simpl. cbv zeta.
  destruct (negb (PyStr.truthy (strip line)) || startswith "#" (strip line)
            || negb (PyStr.contains "=" (strip line))); [reflexivity|].
  now destruct (split_eq (strip line)).
Qed.

Lemma assignments_cons (line : string) (rest : list string) :
  assignments (line :: rest) =
  match parse_line line with
  | None => assignments rest
  | Some kv => kv :: assignments rest
  end.
Proof. unfold assignments. simpl. now destruct (parse_line line). Qed.

Lemma setdefault_legal key value (environ : gmap string string) :
  legal (key, value) = true -> environ !! key = None ->
  setdefault key value environ = Loaded (<[key := value]> environ).
Proof.
  unfold legal, setdefault. simpl. intros H ->.
  repeat (apply andb_prop in H as [H ?]).
  destruct (PyStr.truthy key), (PyStr.contains "=" key), (has_nul key),
           (has_nul value); simpl in *; congruence.
Qed.

Lemma setdefault_present key value (environ : gmap string string) :
  is_Some (environ !! key) -> setdefault key value environ = Loaded environ.
Proof. intros [x H]. unfold setdefault. now rewrite H. Qed.

Lemma setdefault_keeps key value (environ : gmap string string) k v :
  environ !! k = Some v ->
  environ_of (setdefault key value environ) !! k = Some v.
Proof.
  intros H. unfold setdefault.
  destruct (environ !! key) eqn:E; [exact H|].
  destruct (_ || _); [exact H|].
  destruct (negb _); [exact H|]. simpl.
  rewrite lookup_insert_ne; [exact H | congruence].
Qed.

Lemma load_env_lines_keeps (lines : list string)
    (environ : gmap string string) k v :
  environ !! k = Some v ->
  environ_of (load_env_lines lines environ) !! k = Some v.
Proof.
  revert environ. induction lines as [|line rest IH]; intros environ H.
  - exact H.
  - rewrite load_env_lines_cons.
    destruct (parse_line line) as [[key value]|]; [|now apply IH].
    pose proof (setdefault_keeps key value environ k v H) as Hk.
    destruct (setdefault key value environ);
      [now apply IH | exact Hk | exact Hk].
Qed.

Lemma load_env_lines_app (l1 l2 : list string)
    (environ : gmap string string) :
  load_env_lines (l1 ++ l2) environ =
  match load_env_lines l1 environ with
  | Loaded environ' => load_env_lines l2 environ'
  | ValueError environ' => ValueError environ'
  | OSError environ' => OSError environ'
  end.
Proof.
  revert environ. induction l1 as [|line rest IH]; intros environ.
  - reflexivity.
  - change ((line :: rest) ++ l2) with (line :: (rest ++ l2)).
    rewrite !load_env_lines_cons.
    destruct (parse_line line) as [[key value]|]; [|apply IH].
    destruct (setdefault key value environ);
      [apply IH | reflexivity | reflexivity].
Qed.

(** After a successful load every variable assigned in the file is set. *)
Lemma load_env_lines_defines (lines : list string)
    (environ environ' : gmap string string) :
  load_env_lines lines environ = Loaded environ' ->
  forall kv, In kv (assignments lines) -> is_Some (environ' !! fst kv).
Proof.
  revert environ. induction lines as [|line rest IH]; intros environ H kv Hin.
  - destruct Hin.
  - rewrite load_env_lines_cons in H. rewrite assignments_cons in Hin.
    destruct (parse_line line) as [[key value]|]; [|eapply IH; eassumption].
    destruct (setdefault key value environ) as [e1|e1|e1] eqn:E;
      [|discriminate|discriminate].
    destruct Hin as [<-|Hin]; [|eapply IH; eassumption].
    simpl. assert (He1 : is_Some (e1 !! key)).
    { unfold setdefault in E. destruct (environ !! key) eqn:Ek.
      - injection E as <-. eauto.
      - destruct (_ || _); [discriminate|].
        destruct (negb _); [discriminate|]. injection E as <-.
        rewrite lookup_insert_eq. eauto. }
    destruct He1 as [x Hx].
    pose proof (load_env_lines_keeps rest e1 key x Hx) as Hk.
    rewrite H in Hk. simpl in Hk. eauto.
Qed.

Lemma load_env_lines_defined (lines : list string)
    (environ : gmap string string) :
  (forall kv, In kv (assignments lines) -> is_Some (environ !! fst kv)) ->
  load_env_lines lines environ = Loaded environ.
Proof.
  induction lines as [|line rest IH]; intros H.
  - reflexivity.
  - rewrite load_env_lines_cons. rewrite assignments_cons in H.
    destruct (parse_line line) as [[key value]|].
    + rewrite setdefault_present by (apply (H (key, value)); now left).
      apply IH. intros kv Hin. apply H. now right.
    + apply IH, H.
Qed.

Lemma load_env_lines_first (lines : list string)
    (environ : gmap string string) :
  Forall (fun kv => legal kv = true) (assignments lines) ->
  exists environ',
    load_env_lines lines environ = Loaded environ'
    /\ forall k,
         environ' !! k =
         match environ !! k with
         | Some v => Some v
         | None => first_value k (assignments lines)
         end.
Proof.
  revert environ. induction lines as [|line rest IH]; intros environ Hl.
  - exists environ. split; [reflexivity|]. intros k.
    now destruct (environ !! k).
  - rewrite load_env_lines_cons. rewrite assignments_cons in *.
    destruct (parse_line line) as [[key value]|]; [|now apply IH].
    apply Forall_cons in Hl as [Hkv Hl].
    destruct (environ !! key) as [x|] eqn:Ek.
    + rewrite setdefault_present by eauto.
      destruct (IH environ Hl) as (e' & Hrun & Hlook).
      exists e'. split; [exact Hrun|]. intros k. rewrite Hlook.
      destruct (environ !! k) eqn:E; [reflexivity|]. simpl.
      destruct (String.eqb_spec key k); [congruence | reflexivity].
    + rewrite (setdefault_legal _ _ _ Hkv Ek).
      destruct (IH (<[key := value]> environ) Hl) as (e' & Hrun & Hlook).
      exists e'. split; [exact Hrun|]. intros k. rewrite Hlook. simpl.
      destruct (String.eqb_spec key k) as [->|Hne].
      * now rewrite lookup_insert_eq, Ek.
      * now rewrite lookup_insert_ne.
Qed.

End EnvFacts.

(** X12: when every assignment of the file is one the environment accepts
    (non-empty name without ["="], no NUL in name or value), [load_env]
    returns, and afterwards a variable that was set before has kept its
    value, while any other variable has the value of its first assignment
    in the file, if there is one, and is unset otherwise. *)
Theorem load_env_first_assignment (content : string)
    (environ : gmap string string) :
  Forall (fun kv => Env.legal kv = true)
         (Env.assignments (Env.splitlines content)) ->
  exists environ',
    Env.load_env (Some content) environ = Env.Loaded environ'
    /\ forall k,
         environ' !! k =
         match environ !! k with
         | Some v => Some v
         | None => Env.first_value k (Env.assignments (Env.splitlines content))
         end.
Proof. apply EnvFacts.load_env_lines_first. Qed.

Lemma load_env_first_assignment_witness :
  exists environ',
    Env.load_env (Some env_file) {["GROUP_ID" := "1"]} = Env.Loaded environ'
    /\ environ' !! "GROUP_ID" = Some "1"
    /\ environ' !! "URL" = Some "a=b".
Proof.
  destruct (load_env_first_assignment env_file {["GROUP_ID" := "1"]})
    as (e & Hrun & Hlook).
  - vm_compute. repeat constructor.
  - exists e. split; [exact Hrun|]. split.
    + rewrite Hlook. reflexivity.
    + rewrite Hlook. vm_compute. reflexivity.
Defined.

(** X13: [load_env] never overwrites: a variable that is set keeps its
    value, whether the file exists or not and whether the load returns or
    ends in an exception. *)
Theorem load_env_never_overwrites (file : option string)
    (environ : gmap string string) (k v : string) :
  environ !! k = Some v ->
  Env.environ_of (Env.load_env file environ) !! k = Some v.
Proof.
  intros H. destruct file as [content|]; [|exact H].
  now apply EnvFacts.load_env_lines_keeps.
Qed.

Lemma load_env_never_overwrites_witness :
  Env.environ_of (Env.load_env (Some env_file) {["BOT_TOKEN" := "secret"]})
    !! "BOT_TOKEN" = Some "secret".
Proof.
  apply (load_env_never_overwrites (Some env_file) {["BOT_TOKEN" := "secret"]}).
  reflexivity.
Defined.

(** X14: loading is idempotent: when [load_env] has returned, loading the
    same file again returns and changes nothing. *)
Theorem load_env_idempotent (file : option string)
    (environ environ' : gmap string string) :
  Env.load_env file environ = Env.Loaded environ' ->
  Env.load_env file environ' = Env.Loaded environ'.
Proof.
  destruct file as [content|]; [|reflexivity]. simpl. intros H.
  apply EnvFacts.load_env_lines_defined.
  eapply EnvFacts.load_env_lines_defines, H.
Qed.

Lemma load_env_idempotent_witness :
  Env.load_env (Some env_file)
    (Env.environ_of (Env.load_env (Some env_file) ∅))
  = Env.Loaded (Env.environ_of (Env.load_env (Some env_file) ∅)).
Proof.
  apply (load_env_idempotent (Some env_file) ∅).
  vm_compute. reflexivity.
Defined.

(** X15: an assignment that the environment refuses, made to a variable
    that is not set, ends the load with an exception at that line:
    [ValueError] when the name or the value holds NUL (or the name holds
    ["="]), [OSError] when the name is empty.  The assignments of the
    earlier lines stay in the environment and the later lines are not
    read. *)
Theorem load_env_stops_at_illegal (before after : list string)
    (line key value : string) (environ environ1 : gmap string string) :
  Env.load_env_lines before environ = Env.Loaded environ1 ->
  Env.parse_line line = Some (key, value) ->
  environ1 !! key = None ->
  Env.legal (key, value) = false ->
  Env.load_env_lines (before ++ line :: after) environ
  = (if Env.has_nul key || Env.has_nul value || PyStr.contains "=" key
     then Env.ValueError environ1
     else Env.OSError environ1)
  /\ (Env.has_nul key || Env.has_nul value || PyStr.contains "=" key = false
      -> key = "").
Proof.
  intros Hb Hp Hk Hl.
  rewrite EnvFacts.load_env_lines_app, Hb, EnvFacts.load_env_lines_cons, Hp.
  unfold Env.setdefault. rewrite Hk.
  unfold Env.legal in Hl. simpl in Hl.
  destruct (Env.has_nul key), (Env.has_nul value),
           (PyStr.contains "=" key); simpl in *;
    try (split; [reflexivity | discriminate]).
  destruct key; simpl in *; [now split | discriminate].
Qed.

Lemma load_env_stops_at_illegal_witness :
  Env.load_env_lines (["A=1"] ++ " = x" :: ["B=2"]) ∅
  = Env.OSError {["A" := "1"]}.
Proof.
  apply (load_env_stops_at_illegal ["A=1"] ["B=2"] " = x" "" "x" ∅
           {["A" := "1"]}).
  - vm_compute. reflexivity.
  - reflexivity.
  - reflexivity.
  - reflexivity.
Defined.

(** A NUL in the name is refused with [ValueError]. *)
Example load_env_nul_ex :
  Env.load_env_lines
    ["A=1"; "B" +:+ String (ascii_of_nat 0) "=2"; "C=3"] ∅
  = Env.ValueError {["A" := "1"]}.
Proof. vm_compute. reflexivity. Qed.

Module StripFacts.
Import Env.

Lemma lstrip_cons (c : ascii) (r : string) :
  lstrip (String c r) =
  if PyStr.space1 c then lstrip r
  else if PyStr.byte_is c 194 then
    match r with
    | String d r' =>
        if PyStr.byte_is d 133 || PyStr.byte_is d 160 then lstrip r'
        else String c r
    | EmptyString => String c r
    end
  else if PyStr.byte_is c 225 then
    match r with
    | String d (String e r') =>
        if PyStr.byte_is d 154 && PyStr.byte_is e 128 then lstrip r'
        else String c r
    | _ => String c r
    end
  else if PyStr.byte_is c 226 then
    match r with
    | String d (String e r') =>
        let m := N_of_ascii e in
        if (PyStr.byte_is d 128
            && (((128 <=? m) && (m <=? 138)) || (m =? 168) || (m =? 169)
                || (m =? 175))%N)
           || (PyStr.byte_is d 129 && PyStr.byte_is e 159)
        then lstrip r' else String c r
    | _ => String c r
    end
  else if PyStr.byte_is c 227 then
    match r with
    | String d (String e r') =>
        if PyStr.byte_is d 128 && PyStr.byte_is e 128 then lstrip r'
        else String c r
    | _ => String c r
    end
  else String c r.
Proof. reflexivity. Qed.

(** Leading white space is removed whatever follows it. *)
Lemma lstrip_space_aux (n : nat) : forall p t,
  (String.length p <= n)%nat -> PyStr.all_space p = true ->
  lstrip (p +:+ t) = lstrip t.
Proof.
  induction n as [|n IH]; intros p t Hlen Hp.
  - destruct p; [reflexivity | simpl in Hlen; lia].
  - destruct p as [|c r]; [reflexivity|].
    simpl in Hlen. rewrite PyStrFacts.all_space_cons in Hp.
    rewrite PyStrFacts.app_cons, lstrip_cons.
    destruct (PyStr.space1 c); [apply IH; [lia | exact Hp]|].
    destruct (PyStr.byte_is c 194).
    { destruct r as [|d r']; [discriminate|]. simpl in Hlen.
      rewrite PyStrFacts.app_cons.
      apply andb_prop in Hp as [Hd Hp]. rewrite Hd.
      apply IH; [lia | exact Hp]. }
    destruct (PyStr.byte_is c 225).
    { destruct r as [|d [|e r']]; try discriminate. simpl in Hlen.
      rewrite !PyStrFacts.app_cons.
      apply andb_prop in Hp as [Hd Hp]. rewrite Hd.
      apply IH; [lia | exact Hp]. }
    destruct (PyStr.byte_is c 226).
    { destruct r as [|d [|e r']]; try discriminate. simpl in Hlen.
      rewrite !PyStrFacts.app_cons. cbv zeta in *.
      apply andb_prop in Hp as [Hd Hp]. rewrite Hd.
      apply IH; [lia | exact Hp]. }
    destruct (PyStr.byte_is c 227); [|discriminate].
    destruct r as [|d [|e r']]; try discriminate. simpl in Hlen.
    rewrite !PyStrFacts.app_cons.
    apply andb_prop in Hp as [Hd Hp]. rewrite Hd.
    apply IH; [lia | exact Hp].
Qed.

Lemma strip_comment (indent s : string) :
  PyStr.all_space indent = true ->
  strip (indent +:+ String "#" s) = String "#" (rstrip s).
Proof.
  intros H. unfold strip.
  rewrite (lstrip_space_aux (String.length indent)) by (lia || exact H).
  reflexivity.
Qed.

Lemma startswith_hash (s : string) : startswith "#" (String "#" s) = true.
Proof. unfold startswith. apply PyStrFacts.prefix_app. now exists s. Qed.

End StripFacts.

(** X16: a line whose first character after any leading white space is
    ["#"] is a comment: [load_env] skips it, also when it holds an
    assignment. *)
Theorem load_env_skips_comments (indent s : string) (rest : list string)
    (environ : gmap string string) :
  PyStr.all_space indent = true ->
  Env.load_env_lines ((indent +:+ String "#" s) :: rest) environ
  = Env.load_env_lines rest environ.
Proof.
  intros H. rewrite EnvFacts.load_env_lines_cons.
  unfold Env.parse_line. cbv zeta.
  rewrite (StripFacts.strip_comment indent s H).
  now rewrite StripFacts.startswith_hash, orb_true_r.
Qed.

Lemma load_env_skips_comments_witness :
  Env.load_env_lines (("  " +:+ String "#" " BOT_TOKEN=abc") :: ["A=1"]) ∅
  = Env.load_env_lines ["A=1"] ∅.
Proof.
  apply (load_env_skips_comments "  " " BOT_TOKEN=abc" ["A=1"] ∅).
  reflexivity.
Defined.
